(** * MELODY4U backend: the object-store client (r2.js) and the HTTP
      handlers (server.js), embedded as state-passing functions.

    JavaScript strings are sequences of UTF-16 code units; the handlers run
    in a small state-and-exception monad whose state holds the local files,
    the objects of the bucket and the log of calls made to collaborators
    (presigner, store, ffmpeg, file system, console). *)

From Stdlib Require Import Floats.SpecFloat Strings.Ascii Strings.String.
From stdpp Require Import base numbers list option strings gmap.

Local Open Scope N_scope.
Set Warnings "-register-all".

(** ** JavaScript strings *)

Module JsString.

(** A string is the list of its UTF-16 code units. *)
Definition jsstring : Type := list N.

(** A string literal of the source (ASCII). *)
Definition lit (s : string) : jsstring :=
  map Ascii.N_of_ascii (String.list_ascii_of_string s).

(** [String.prototype.endsWith]. *)
Definition endsWith (s suffix : jsstring) : bool :=
  bool_decide (drop (length s - length suffix)%nat s = suffix).

(** [s.replace(/\/$/, '')]: one slash at the very end is removed. *)
Fixpoint strip_trailing_slash (s : jsstring) : jsstring :=
  match s with
  | [] => []
  | c :: r =>
      match r with
      | [] => if c =? 47 then [] else [c]
      | _ :: _ => c :: strip_trailing_slash r
      end
  end.

(** The characters the regular-expression class [\s] matches: WhiteSpace
    and LineTerminator of ECMAScript. *)
Definition is_whitespace (c : N) : bool :=
  ((9 <=? c) && (c <=? 13)) || (c =? 32) || (c =? 160) || (c =? 5760)
  || ((8192 <=? c) && (c <=? 8202)) || (c =? 8232) || (c =? 8233)
  || (c =? 8239) || (c =? 8287) || (c =? 12288) || (c =? 65279).

(** [s.replace(/\s+/g, '-')], as the left-to-right scan the global replace
    performs: [in_match] tells that the greedy match of [\s+] that began
    earlier is still consuming. *)
Fixpoint replace_ws_from (in_match : bool) (s : jsstring) : jsstring :=
  match s with
  | [] => []
  | c :: r =>
      if is_whitespace c
      then (if in_match then replace_ws_from true r
            else 45 :: replace_ws_from true r)
      else c :: replace_ws_from false r
  end.

Definition replace_ws (s : jsstring) : jsstring := replace_ws_from false s.

(** *** encodeURI *)

Definition is_alpha (c : N) : bool :=
  ((65 <=? c) && (c <=? 90)) || ((97 <=? c) && (c <=? 122)).

Definition is_digit (c : N) : bool := (48 <=? c) && (c <=? 57).

(** uriReserved, uriMark and the number sign: besides letters and digits,
    the code units [encodeURI] copies unchanged. *)
Definition uri_punctuation : jsstring := lit ";/?:@&=+$,-_.!~*'()#".

Definition uri_unescaped (c : N) : bool :=
  is_alpha c || is_digit c || bool_decide (c ∈ uri_punctuation).

Definition hex_digit (d : N) : N := if d <? 10 then 48 + d else 55 + d.

(** "%XX" with upper-case hexadecimal digits. *)
Definition percent (octet : N) : jsstring :=
  [37; hex_digit (octet / 16); hex_digit (octet mod 16)].

(** The UTF-8 octets of a code point. *)
Definition utf8 (cp : N) : list N :=
  if cp <? 128 then [cp]
  else if cp <? 2048 then [192 + cp / 64; 128 + cp mod 64]
  else if cp <? 65536 then
    [224 + cp / 4096; 128 + (cp / 64) mod 64; 128 + cp mod 64]
  else
    [240 + cp / 262144; 128 + (cp / 4096) mod 64;
     128 + (cp / 64) mod 64; 128 + cp mod 64].

Definition is_lead_surrogate (c : N) : bool := (55296 <=? c) && (c <=? 56319).
Definition is_trail_surrogate (c : N) : bool := (56320 <=? c) && (c <=? 57343).

Definition escape (cp : N) : jsstring := concat (map percent (utf8 cp)).

(** [encodeURI(s)]; [None] is the URIError thrown at an unpaired
    surrogate. *)
Fixpoint encodeURI (s : jsstring) : option jsstring :=
  match s with
  | [] => Some []
  | c :: r =>
      if uri_unescaped c then (c ::.) <$> encodeURI r
      else if is_trail_surrogate c then None
      else if is_lead_surrogate c then
        match r with
        | d :: r' =>
            if is_trail_surrogate d
            then (escape ((c - 55296) * 1024 + (d - 56320) + 65536) ++.)
                   <$> encodeURI r'
            else None
        | [] => None
        end
      else (escape c ++.) <$> encodeURI r
  end.

(** No code unit of the string needs escaping. *)
Definition uri_safe (s : jsstring) : Prop := Forall (fun c => uri_unescaped c = true) s.

(** No unpaired surrogate occurs in the string. *)
Fixpoint well_formed (s : jsstring) : bool :=
  match s with
  | [] => true
  | c :: r =>
      if is_trail_surrogate c then false
      else if is_lead_surrogate c then
        match r with
        | d :: r' => is_trail_surrogate d && well_formed r'
        | [] => false
        end
      else well_formed r
  end.

End JsString.
Export JsString.

Arguments lit : simpl never.

(** ** JavaScript values *)

(** The values a parsed JSON body is made of, with [undefined] for what is
    absent. Numbers are IEEE doubles. *)
Inductive JSValue : Type :=
| JUndefined
| JNull
| JBool (b : bool)
| JNum (x : spec_float)
| JStr (s : jsstring)
| JArr (items : list JSValue)
| JObj (props : list (jsstring * JSValue)).

(** ToBoolean. *)
Definition truthy (v : JSValue) : bool :=
  match v with
  | JUndefined | JNull => false
  | JBool b => b
  | JNum (S754_zero _) | JNum S754_nan => false
  | JNum _ => true
  | JStr s => negb (bool_decide (s = []))
  | JArr _ | JObj _ => true
  end.

(** [a || b] on values. *)
Definition js_or (a b : JSValue) : JSValue := if truthy a then a else b.

Fixpoint assoc (k : jsstring) (props : list (jsstring * JSValue)) : JSValue :=
  match props with
  | [] => JUndefined
  | (k', v) :: rest => if bool_decide (k' = k) then v else assoc k rest
  end.

(** Reading a property the way destructuring does: only an object built
    from JSON carries own data properties under such names. *)
Definition get_prop (o : JSValue) (k : jsstring) : JSValue :=
  match o with
  | JObj props => assoc k props
  | _ => JUndefined
  end.

(** ToString of a string-or-undefined, as a template literal applies it. *)
Definition ToString (v : option jsstring) : jsstring :=
  match v with
  | Some s => s
  | None => lit "undefined"
  end.

(** [s || undefined] on a string-or-undefined. *)
Definition or_undefined (v : option jsstring) : option jsstring :=
  match v with
  | Some [] => None
  | _ => v
  end.

Definition bytes : Type := list Byte.byte.

(** ** Collaborators *)

Record GetObjectCommand := { get_Bucket : option jsstring; get_Key : JSValue }.

Record PutObjectCommand := {
  put_Bucket : option jsstring;
  put_Key : jsstring;
  put_Body : bytes;
  put_ContentType : option jsstring
}.

(** One fluent-ffmpeg command, as assembled before [save]. *)
Record FfmpegCommand := {
  ff_inputs : list jsstring;
  ff_complexFilter : list jsstring;
  ff_outputOptions : list jsstring;
  ff_output : jsstring
}.

(** What the engine reports: ['end'] with the file written, or ['error'],
    possibly after creating a partial file. *)
Inductive FfmpegResult := FfEnd (out : bytes) | FfError (partial : option bytes).

Inductive Exn := TypeError | URIError | PresignError | StoreError | PipelineError | IoError.

(** The calls the handlers make to the outside. *)
Inductive Event :=
| EvGetSignedUrl (cmd : GetObjectCommand) (expiresIn : N)
| EvSend (cmd : PutObjectCommand)
| EvFfmpeg (cmd : FfmpegCommand)
| EvReadFile (path : jsstring)
| EvUnlink (path : jsstring)
| EvConsoleError (label : jsstring) (err : Exn).

(** The behaviour of the collaborators. The number handed to an oracle is
    the count of calls logged before, so that repeated calls may answer
    differently. *)
Record Env := {
  (** [new URL(s).hostname]; [None] when the constructor throws *)
  url_hostname : jsstring -> option jsstring;
  (** the successive results of [uuidv4()] *)
  uuidv4_at : nat -> jsstring;
  (** [os.tmpdir()] *)
  tmpdir : jsstring;
  (** [getSignedUrl]; [None] when it rejects *)
  presign : nat -> GetObjectCommand -> N -> option jsstring;
  (** whether [client.send] of a put resolves *)
  store_accepts : nat -> PutObjectCommand -> bool;
  ffmpeg_run : nat -> FfmpegCommand -> FfmpegResult;
  (** whether removing an existing file fails *)
  unlink_fails : nat -> jsstring -> bool
}.

Record StoredObject := { obj_body : bytes; obj_type : option jsstring }.

Record State := {
  uuid_count : nat;
  files : gmap jsstring bytes;
  objects : gmap jsstring StoredObject;
  calls : list Event
}.

(** ** The monad of the handlers: state that survives a throw *)

Inductive Outcome (A : Type) := Ok (a : A) | Thrown (e : Exn).
Arguments Ok {A} a.
Arguments Thrown {A} e.

Definition M (A : Type) : Type := State -> Outcome A * State.

Definition ret {A} (a : A) : M A := fun s => (Ok a, s).
Definition throw {A} (e : Exn) : M A := fun s => (Thrown e, s).

Definition bind {A B} (m : M A) (k : A -> M B) : M B :=
  fun s =>
    match m s with
    | (Ok a, s') => k a s'
    | (Thrown e, s') => (Thrown e, s')
    end.

Definition try_catch {A} (m : M A) (h : Exn -> M A) : M A :=
  fun s =>
    match m s with
    | (Ok a, s') => (Ok a, s')
    | (Thrown e, s') => h e s'
    end.

Notation "x <- m ;; k" := (bind m (fun x => k))
  (at level 100, m at next level, right associativity).

Definition log (e : Event) : M unit :=
  fun s => (Ok tt, {| uuid_count := uuid_count s; files := files s;
                      objects := objects s; calls := calls s ++ [e] |}).

Definition set_files (f : gmap jsstring bytes) (s : State) : State :=
  {| uuid_count := uuid_count s; files := f; objects := objects s; calls := calls s |}.

Definition set_objects (o : gmap jsstring StoredObject) (s : State) : State :=
  {| uuid_count := uuid_count s; files := files s; objects := o; calls := calls s |}.

Definition lift_option {A} (e : Exn) (o : option A) : M A :=
  match o with
  | Some a => ret a
  | None => throw e
  end.

(** ** r2.js *)

Record Cfg := {
  cfg_accountId : option jsstring;
  cfg_accessKeyId : option jsstring;
  cfg_secretAccessKey : option jsstring;
  cfg_bucket : option jsstring;
  cfg_endpoint : option jsstring
}.

(** The SDK client is kept as the configuration it is built from; building
    it does not contact the store. *)
Record S3Client := {
  s3_region : jsstring;
  s3_endpoint : option jsstring;
  s3_forcePathStyle : bool;
  s3_accessKeyId : option jsstring;
  s3_secretAccessKey : option jsstring
}.

Record R2 := {
  bucket : option jsstring;
  accountId : option jsstring;
  endpoint : option jsstring;
  client : S3Client
}.

(** [constructor(cfg)]; [cfg.endpoint?.replace(/\/$/, '')] leaves an absent
    endpoint absent. *)
Definition R2_new (cfg : Cfg) : R2 :=
  let ep := strip_trailing_slash <$> cfg_endpoint cfg in
  {| bucket := cfg_bucket cfg;
     accountId := cfg_accountId cfg;
     endpoint := ep;
     client := {| s3_region := lit "auto";
                  s3_endpoint := ep;
                  s3_forcePathStyle := true;
                  s3_accessKeyId := cfg_accessKeyId cfg;
                  s3_secretAccessKey := cfg_secretAccessKey cfg |} |}.

Definition r2_domain : jsstring := lit ".r2.cloudflarestorage.com".

Record Response := { status : N; body : JSValue }.

(** What multer leaves in [req.file]. *)
Record File := {
  originalname : option jsstring;
  buffer : bytes;
  mimetype : option jsstring
}.

Section Backend.

Variable E : Env.

(** *** Platform and library calls *)

(** [new URL(v).hostname]: the argument is converted to a string first. *)
Definition new_URL_hostname (v : option jsstring) : M jsstring :=
  lift_option TypeError (url_hostname E (ToString v)).

(** [v.replace(/\/$/, '')] as a method call: a TypeError on [undefined]. *)
Definition replace_trailing_slash (v : option jsstring) : M jsstring :=
  lift_option TypeError (strip_trailing_slash <$> v).

Definition uuidv4 : M jsstring :=
  fun s => (Ok (uuidv4_at E (uuid_count s)),
            {| uuid_count := S (uuid_count s); files := files s;
               objects := objects s; calls := calls s |}).

Definition getSignedUrl (cmd : GetObjectCommand) (expiresIn : N) : M jsstring :=
  fun s =>
    let n := length (calls s) in
    bind (log (EvGetSignedUrl cmd expiresIn))
         (fun _ => lift_option PresignError (presign E n cmd expiresIn)) s.

Definition client_send (cmd : PutObjectCommand) : M unit :=
  fun s =>
    let n := length (calls s) in
    bind (log (EvSend cmd))
         (fun _ s' =>
            if store_accepts E n cmd
            then (Ok tt, set_objects
                           (<[put_Key cmd := {| obj_body := put_Body cmd;
                                                obj_type := put_ContentType cmd |}]>
                              (objects s')) s')
            else (Thrown StoreError, s')) s.

(** [ffmpeg()...save(out)] wrapped in the promise: resolved on ['end'],
    rejected on ['error']. *)
Definition ffmpeg_save (cmd : FfmpegCommand) : M unit :=
  fun s =>
    let n := length (calls s) in
    bind (log (EvFfmpeg cmd))
         (fun _ s' =>
            match ffmpeg_run E n cmd with
            | FfEnd out => (Ok tt, set_files (<[ff_output cmd := out]> (files s')) s')
            | FfError (Some part) =>
                (Thrown PipelineError, set_files (<[ff_output cmd := part]> (files s')) s')
            | FfError None => (Thrown PipelineError, s')
            end) s.

Definition readFile (path : jsstring) : M bytes :=
  bind (log (EvReadFile path))
       (fun _ s' => (match files s' !! path with
                     | Some b => Ok b
                     | None => Thrown IoError
                     end, s')).

Definition unlinkSync (path : jsstring) : M unit :=
  fun s =>
    let n := length (calls s) in
    bind (log (EvUnlink path))
         (fun _ s' =>
            match files s' !! path with
            | None => (Thrown IoError, s')
            | Some _ =>
                if unlink_fails E n path then (Thrown IoError, s')
                else (Ok tt, set_files (delete path (files s')) s')
            end) s.

Definition console_error (label : jsstring) (err : Exn) : M unit :=
  log (EvConsoleError label err).

(** *** class R2 *)

Definition putObject (this : R2) (key : jsstring) (body : bytes)
    (contentType : option jsstring) : M unit :=
  client_send {| put_Bucket := bucket this; put_Key := key; put_Body := body;
                 put_ContentType := or_undefined contentType |}.

Definition publicUrl (this : R2) (key : jsstring) : M jsstring :=
  hostname <- new_URL_hostname (endpoint this) ;;
  if endsWith hostname r2_domain then
    enc <- lift_option URIError (encodeURI key) ;;
    ret (lit "https://" ++ ToString (bucket this) ++ lit "."
           ++ ToString (accountId this) ++ r2_domain ++ lit "/" ++ enc)
  else
    base <- replace_trailing_slash (endpoint this) ;;
    enc <- lift_option URIError (encodeURI key) ;;
    ret (base ++ lit "/" ++ enc).

(** [signedUrl(key, expiresSeconds = 300)]: [None] is the omitted
    argument. *)
Definition signedUrl (this : R2) (key : JSValue) (expiresSeconds : option N)
    : M jsstring :=
  let expiresSeconds := default 300 expiresSeconds in
  getSignedUrl {| get_Bucket := bucket this; get_Key := key |} expiresSeconds.

(** *** server.js *)

Variable r2 : R2.

(** [res.json(v)] and [res.status(n).json(v)]. *)
Definition json (v : JSValue) : Response := {| status := 200; body := v |}.
Definition status_json (n : N) (v : JSValue) : Response := {| status := n; body := v |}.

Definition failure (msg : string) : JSValue :=
  JObj [(lit "ok", JBool false); (lit "error", JStr (lit msg))].

(** [a || b] where [a] is a string or undefined. *)
Definition or_string (a : option jsstring) (b : jsstring) : jsstring :=
  match a with
  | Some (c :: r) => c :: r
  | _ => b
  end.

(** The [try] block of [app.post('/upload')]. *)
Definition upload_try (file : option File) : M Response :=
  match file with
  | None => ret (status_json 400 (failure "Missing file"))
  | Some f =>
      let original := replace_ws (or_string (originalname f) (lit "upload.bin")) in
      u <- uuidv4 ;;
      let key := lit "uploads/" ++ u ++ lit "-" ++ original in
      _ <- putObject r2 key (buffer f) (or_undefined (mimetype f)) ;;
      url <- publicUrl r2 key ;;
      ret (json (JObj [(lit "ok", JBool true); (lit "key", JStr key);
                       (lit "url", JStr url)]))
  end.

Definition post_upload (file : option File) : M Response :=
  try_catch (upload_try file)
    (fun err =>
       _ <- console_error (lit "UPLOAD error:") err ;;
       ret (status_json 500 (failure "Upload failed"))).

Definition mix_filter : jsstring :=
  lit "[0:a]volume=1.0[a0];[1:a]volume=0.8[a1];[a0][a1]amix=inputs=2:duration=shortest:dropout_transition=0[a]".

Definition mix_outputOptions : list jsstring :=
  [lit "-map [a]"; lit "-ac 2"; lit "-ar 44100"; lit "-b:a 192k"].

Definition mix_command (voiceUrl musicUrl outFile : jsstring) : FfmpegCommand :=
  {| ff_inputs := [voiceUrl; musicUrl];
     ff_complexFilter := [mix_filter];
     ff_outputOptions := mix_outputOptions;
     ff_output := outFile |}.

(** [path.join(os.tmpdir(), name)] for a plain file name; [os.tmpdir()]
    carries no trailing separator. *)
Definition path_join_tmp (name : jsstring) : jsstring := tmpdir E ++ lit "/" ++ name.

(** The [try] block of [app.post('/render')]. *)
Definition render_try (req_body : JSValue) : M Response :=
  let b := js_or req_body (JObj []) in
  let voiceKey := get_prop b (lit "voiceKey") in
  let musicKey := get_prop b (lit "musicKey") in
  if negb (truthy voiceKey) || negb (truthy musicKey) then
    ret (status_json 400 (failure "Missing voiceKey or musicKey"))
  else
    voiceUrl <- signedUrl r2 voiceKey (Some 600) ;;
    musicUrl <- signedUrl r2 musicKey (Some 600) ;;
    u <- uuidv4 ;;
    let outFile := path_join_tmp (lit "mix-" ++ u ++ lit ".mp3") in
    _ <- ffmpeg_save (mix_command voiceUrl musicUrl outFile) ;;
    u' <- uuidv4 ;;
    let outKey := lit "output/" ++ u' ++ lit ".mp3" in
    fileBuffer <- readFile outFile ;;
    _ <- putObject r2 outKey fileBuffer (Some (lit "audio/mpeg")) ;;
    _ <- try_catch (unlinkSync outFile) (fun _ => ret tt) ;;
    url <- publicUrl r2 outKey ;;
    ret (json (JObj [(lit "ok", JBool true); (lit "outKey", JStr outKey);
                     (lit "url", JStr url)])).

Definition post_render (req_body : JSValue) : M Response :=
  try_catch (render_try req_body)
    (fun err =>
       _ <- console_error (lit "RENDER error:") err ;;
       ret (status_json 500 (failure "Render failed"))).

End Backend.

(** ** Reading an ffmpeg filter graph

    The text handed to [complexFilter] is decoded into its filters, so that
    the gains and the mixing options can be stated as data: chains are
    separated by semicolons, pad labels stand in square brackets before and
    after a filter, and a filter is a name, an equals sign and arguments
    separated by colons. *)

Record Filter := {
  f_inputs : list jsstring;
  f_name : jsstring;
  f_args : list (option jsstring * jsstring);
  f_outputs : list jsstring
}.

Fixpoint split_on (sep : N) (s : jsstring) : list jsstring :=
  match s with
  | [] => [[]]
  | c :: r =>
      if c =? sep then [] :: split_on sep r
      else match split_on sep r with
           | h :: t => (c :: h) :: t
           | [] => [[c]]
           end
  end.

(** Splits at the first occurrence of [sep], when there is one. *)
Fixpoint cut_at (sep : N) (s : jsstring) : option (jsstring * jsstring) :=
  match s with
  | [] => None
  | c :: r =>
      if c =? sep then Some ([], r)
      else (fun '(a, b) => (c :: a, b)) <$> cut_at sep r
  end.

Definition parse_arg (a : jsstring) : option jsstring * jsstring :=
  match cut_at 61 a with
  | Some (k, v) => (Some k, v)
  | None => (None, a)
  end.

(** The pieces that follow each opening bracket, as (label, text after the
    closing bracket). *)
Definition labelled_pieces (chain : jsstring) : option (list (jsstring * jsstring)) :=
  match split_on 91 chain with
  | [] :: pieces => mapM (cut_at 93) pieces
  | _ => None
  end.

(** The input labels, the filter text and the pieces after it. *)
Fixpoint leading_labels (pieces : list (jsstring * jsstring))
    : option (list jsstring * jsstring * list (jsstring * jsstring)) :=
  match pieces with
  | [] => None
  | (l, []) :: rest =>
      (fun '(ins, text, after) => (l :: ins, text, after)) <$> leading_labels rest
  | (l, text) :: rest => Some ([l], text, rest)
  end.

Definition parse_filter (chain : jsstring) : option Filter :=
  pieces ← labelled_pieces chain;
  '(ins, text, after) ← leading_labels pieces;
  if forallb (fun p => bool_decide (p.2 = [])) after then
    '(name, args) ← cut_at 61 text;
    Some {| f_inputs := ins;
            f_name := name;
            f_args := parse_arg <$> split_on 58 args;
            f_outputs := fst <$> after |}
  else None.

Definition parse_filter_graph (g : jsstring) : option (list Filter) :=
  mapM parse_filter (split_on 59 g).

(** The graph the specification describes: the voice input at gain 1.0,
    the music input at gain 0.8, both mixed with the duration of the
    shorter one and no dropout transition. *)
Definition spec_filter_graph : list Filter :=
  [ {| f_inputs := [lit "0:a"]; f_name := lit "volume";
       f_args := [(None, lit "1.0")]; f_outputs := [lit "a0"] |};
    {| f_inputs := [lit "1:a"]; f_name := lit "volume";
       f_args := [(None, lit "0.8")]; f_outputs := [lit "a1"] |};
    {| f_inputs := [lit "a0"; lit "a1"]; f_name := lit "amix";
       f_args := [(Some (lit "inputs"), lit "2");
                  (Some (lit "duration"), lit "shortest");
                  (Some (lit "dropout_transition"), lit "0")];
       f_outputs := [lit "a"] |} ].

(** The encoding the specification describes, as ffmpeg options: the mixed
    pad mapped to the output, 2 channels, 44100 Hz, 192 kbit/s. *)
Definition spec_output_options : list (jsstring * jsstring) :=
  [(lit "-map", lit "[a]"); (lit "-ac", lit "2"); (lit "-ar", lit "44100");
   (lit "-b:a", lit "192k")].

(** An option of [outputOptions] is a flag, a space and its value. *)
Definition parse_option (o : jsstring) : option (jsstring * jsstring) := cut_at 32 o.

(** A command that mixes and encodes as the specification describes, into
    an MP3 file. *)
Definition mixes_as_specified (cmd : FfmpegCommand) : Prop :=
  (exists g, ff_complexFilter cmd = [g] /\ parse_filter_graph g = Some spec_filter_graph)
  /\ mapM parse_option (ff_outputOptions cmd) = Some spec_output_options
  /\ endsWith (ff_output cmd) (lit ".mp3") = true.

(** ** Reading the log of calls *)

Definition presign_calls (tr : list Event) : list (GetObjectCommand * N) :=
  omap (fun e => match e with EvGetSignedUrl c t => Some (c, t) | _ => None end) tr.

Definition store_writes (tr : list Event) : list PutObjectCommand :=
  omap (fun e => match e with EvSend c => Some c | _ => None end) tr.

Definition pipeline_calls (tr : list Event) : list FfmpegCommand :=
  omap (fun e => match e with EvFfmpeg c => Some c | _ => None end) tr.

Definition unlink_calls (tr : list Event) : list jsstring :=
  omap (fun e => match e with EvUnlink p => Some p | _ => None end) tr.

(** The property is absent, or it is the empty string. *)
Definition absent_or_empty (v : JSValue) : Prop := v = JUndefined \/ v = JStr [].

(** ** The upload name as the specification words it

    The name is cut into its maximal blocks of whitespace and of other
    characters; every whitespace block becomes one hyphen. *)

Fixpoint blocks (s : jsstring) : list (bool * jsstring) :=
  match s with
  | [] => []
  | c :: r =>
      match blocks r with
      | (w, blk) :: rest =>
          if bool_decide (w = is_whitespace c) then (w, c :: blk) :: rest
          else (is_whitespace c, [c]) :: (w, blk) :: rest
      | [] => [(is_whitespace c, [c])]
      end
  end.

(** Adjacent blocks are of different kinds: no run is cut in two. *)
Fixpoint alternating (bs : list (bool * jsstring)) : Prop :=
  match bs with
  | b :: (b' :: _) as rest => b.1 <> b'.1 /\ alternating rest
  | _ => True
  end.

Definition hyphenate (bs : list (bool * jsstring)) : jsstring :=
  concat ((fun b : bool * jsstring => if b.1 then [45] else b.2) <$> bs).

Definition spec_upload_name (original : option jsstring) : jsstring :=
  match original with
  | None | Some [] => lit "upload.bin"
  | Some name => hyphenate (blocks name)
  end.

(** ** The public URL as the specification words it: the key is appended
    as it is. *)
Definition stated_publicUrl (E : Env) (this : R2) (key : jsstring) : option jsstring :=
  h ← url_hostname E (ToString (endpoint this));
  Some (if endsWith h r2_domain
        then lit "https://" ++ ToString (bucket this) ++ lit "."
               ++ ToString (accountId this) ++ r2_domain ++ lit "/" ++ key
        else strip_trailing_slash (ToString (endpoint this)) ++ lit "/" ++ key).

(** ** A concrete platform, for running the handlers

    [URL_hostname] follows the URL parser on the addresses this service is
    configured with: "http:" or "https:", slashes, a host of ASCII letters,
    digits, hyphens and dots whose labels are not empty, whose last label
    starts with a letter and none of which is punycode, an optional decimal
    port, then a path. A string without a scheme makes the constructor
    throw. Anything else is outside of what is modelled and answers [None]
    as well; the general theorems below hold for any parser and do not
    depend on this one. *)

Fixpoint span (p : N -> bool) (s : jsstring) : jsstring * jsstring :=
  match s with
  | [] => ([], [])
  | c :: r => if p c then let '(a, b) := span p r in (c :: a, b) else ([], s)
  end.

Definition to_lower (c : N) : N := if (65 <=? c) && (c <=? 90) then c + 32 else c.

Definition is_scheme_char (c : N) : bool :=
  is_alpha c || is_digit c || (c =? 43) || (c =? 45) || (c =? 46).

Definition is_host_char (c : N) : bool :=
  is_alpha c || is_digit c || (c =? 45) || (c =? 46).

Definition label_ok (l : jsstring) : bool :=
  negb (bool_decide (l = [])) && negb (bool_decide (take 4 l = lit "xn--")).

Definition starts_with_letter (l : jsstring) : bool :=
  match l with
  | c :: _ => is_alpha c
  | [] => false
  end.

Definition host_ok (h : jsstring) : bool :=
  let labels := split_on 46 h in
  forallb is_host_char h && forallb label_ok labels
  && starts_with_letter (default [] (last labels)).

Definition decimal (ds : jsstring) : N := fold_left (fun a d => 10 * a + (d - 48)) ds 0.

Definition port_ok (p : jsstring) : bool :=
  match p with
  | [] => true
  | _ :: ds => forallb is_digit ds && (length ds <=? 5)%nat && (decimal ds <=? 65535)
  end.

Definition URL_hostname (s : jsstring) : option jsstring :=
  let '(scheme, rest) := span is_scheme_char s in
  match rest with
  | 58 :: after =>
      let scheme := to_lower <$> scheme in
      if starts_with_letter scheme
         && (bool_decide (scheme = lit "http") || bool_decide (scheme = lit "https"))
      then
        let '(_, after) := span (fun c => (c =? 47) || (c =? 92)) after in
        let '(authority, _) :=
          span (fun c => negb ((c =? 47) || (c =? 92) || (c =? 63) || (c =? 35))) after in
        let '(host, port) := span (fun c => negb (c =? 58)) authority in
        let host := to_lower <$> host in
        if host_ok host && port_ok port then Some host else None
      else None
  | _ => None
  end.

Definition sample_uuid (n : nat) : jsstring :=
  lit "3f2b8c1e-7d4a-4c6b-9e0f-1a2b3c4d5e6" ++ [48 + N.of_nat (n mod 10)].

(** A presigned address for a string key. *)
Definition sample_presign (cmd : GetObjectCommand) (ttl : N) : option jsstring :=
  match get_Key cmd with
  | JStr k => Some (lit "https://acc.r2.cloudflarestorage.com/" ++ ToString (get_Bucket cmd)
                      ++ lit "/" ++ k ++ lit "?X-Amz-Signature=5d1c")
  | _ => None
  end.

(** A run of the service in which the three collaborators behave as told:
    whether presigning works, what ffmpeg reports, whether the store takes
    the upload. *)
Definition scenario (presign_works : bool) (ff : FfmpegResult) (store_works : bool) : Env :=
  {| url_hostname := URL_hostname;
     uuidv4_at := sample_uuid;
     tmpdir := lit "/tmp";
     presign := fun _ cmd ttl => if presign_works then sample_presign cmd ttl else None;
     store_accepts := fun _ _ => store_works;
     ffmpeg_run := fun _ _ => ff;
     unlink_fails := fun _ _ => false |}.

Definition sample_cfg : Cfg :=
  {| cfg_accountId := Some (lit "acc");
     cfg_accessKeyId := Some (lit "AKIDEXAMPLE");
     cfg_secretAccessKey := Some (lit "secret");
     cfg_bucket := Some (lit "melody4u");
     cfg_endpoint := Some (lit "https://acc.r2.cloudflarestorage.com") |}.

(** The environment of a deployment whose R2 variables are not set. *)
Definition unset_cfg : Cfg :=
  {| cfg_accountId := None; cfg_accessKeyId := None; cfg_secretAccessKey := None;
     cfg_bucket := None; cfg_endpoint := None |}.

Definition sample_r2 : R2 := R2_new sample_cfg.

Definition sample_body : JSValue :=
  JObj [(lit "voiceKey", JStr (lit "uploads/abc-voice.wav"));
        (lit "musicKey", JStr (lit "uploads/def-music.wav"))].

Definition mixed_audio : bytes := [Byte.x49; Byte.x44; Byte.x33].

Definition init : State :=
  {| uuid_count := 0; files := ∅; objects := ∅; calls := [] |}.

(** All collaborators work. *)
Definition sample_env : Env := scenario true (FfEnd mixed_audio) true.

(** What the service then answers to [sample_body]. *)
Definition sample_success : Response :=
  {| status := 200;
     body := JObj [(lit "ok", JBool true);
                   (lit "outKey", JStr (lit "output/3f2b8c1e-7d4a-4c6b-9e0f-1a2b3c4d5e61.mp3"));
                   (lit "url",
                    JStr (lit "https://melody4u.acc.r2.cloudflarestorage.com/output/3f2b8c1e-7d4a-4c6b-9e0f-1a2b3c4d5e61.mp3"))] |}.

(** ** Further notions used in the properties below *)

(** Every element is a UTF-16 code unit. *)
Definition code_units (s : jsstring) : Prop := Forall (fun c => c < 65536) s.

(** Nothing in the string is matched by [\s]. *)
Definition no_whitespace (s : jsstring) : Prop :=
  Forall (fun c => is_whitespace c = false) s.

(** A character [encodeURI] may put out: one it copies, or the percent
    sign. *)
Definition url_char (c : N) : Prop := uri_unescaped c = true \/ c = 37.

(** One step of [encodeURI] on a string that is not empty: what is put out
    for the first character (one code unit, or the two of a surrogate
    pair) and the input that remains. *)
Definition encode_step (s : jsstring) : option (jsstring * jsstring) :=
  match s with
  | [] => None
  | c :: r =>
      if uri_unescaped c then Some ([c], r)
      else if is_trail_surrogate c then None
      else if is_lead_surrogate c then
        match r with
        | d :: r' =>
            if is_trail_surrogate d
            then Some (escape ((c - 55296) * 1024 + (d - 56320) + 65536), r')
            else None
        | [] => None
        end
      else Some (escape c, r)
  end.

(** [!v] for an environment variable: unset or empty. *)
Definition unset_or_empty (v : option jsstring) : bool :=
  match v with
  | None | Some [] => true
  | Some (_ :: _) => false
  end.

(** The start of server.js: whether the warning about missing R2 variables
    is printed, and the client that is built in either case. *)
Definition startup (env : Cfg) : bool * R2 :=
  (unset_or_empty (cfg_accessKeyId env) || unset_or_empty (cfg_secretAccessKey env)
   || unset_or_empty (cfg_accountId env) || unset_or_empty (cfg_bucket env)
   || unset_or_empty (cfg_endpoint env),
   R2_new env).

(** The collaborator a call goes to. *)
Inductive Kind := KPresign | KFfmpeg | KReadFile | KSend | KUnlink | KConsole.

Definition kind (e : Event) : Kind :=
  match e with
  | EvGetSignedUrl _ _ => KPresign
  | EvSend _ => KSend
  | EvFfmpeg _ => KFfmpeg
  | EvReadFile _ => KReadFile
  | EvUnlink _ => KUnlink
  | EvConsoleError _ _ => KConsole
  end.

(** The calls of a render request that runs to its end, in order. *)
Definition render_order : list Kind :=
  [KPresign; KPresign; KFfmpeg; KReadFile; KSend; KUnlink].

(** The temporary file and the output key of a render request that starts
    in state [s]. *)
Definition render_outFile (E : Env) (s : State) : jsstring :=
  path_join_tmp E (lit "mix-" ++ uuidv4_at E (uuid_count s) ++ lit ".mp3").

Definition render_outKey (E : Env) (s : State) : jsstring :=
  lit "output/" ++ uuidv4_at E (S (uuid_count s)) ++ lit ".mp3".

(** The key of an upload that starts in state [s]. *)
Definition upload_key_of (E : Env) (s : State) (f : File) : jsstring :=
  lit "uploads/" ++ uuidv4_at E (uuid_count s) ++ lit "-"
    ++ replace_ws (or_string (originalname f) (lit "upload.bin")).

(** A platform on which removing a file always fails. *)
Definition with_unlink_failure (E : Env) : Env :=
  {| url_hostname := url_hostname E;
     uuidv4_at := uuidv4_at E;
     tmpdir := tmpdir E;
     presign := presign E;
     store_accepts := store_accepts E;
     ffmpeg_run := ffmpeg_run E;
     unlink_fails := fun _ _ => true |}.

(** A configuration whose endpoint lacks its scheme. *)
Definition schemeless_cfg : Cfg :=
  {| cfg_accountId := Some (lit "acc");
     cfg_accessKeyId := Some (lit "AKIDEXAMPLE");
     cfg_secretAccessKey := Some (lit "secret");
     cfg_bucket := Some (lit "melody4u");
     cfg_endpoint := Some (lit "acc.r2.cloudflarestorage.com") |}.

Definition sample_file : File :=
  {| originalname := Some (lit "my voice.wav");
     buffer := mixed_audio;
     mimetype := Some (lit "audio/wav") |}.

(** * Properties *)

(** ** Strings *)

Section StringFacts.

Implicit Types (s key : jsstring) (c : N).

Lemma uri_unescaped_ascii c : uri_unescaped c = true -> c < 128.
Proof.
  unfold uri_unescaped, is_alpha, is_digit.
  rewrite !orb_true_iff, !andb_true_iff, !N.leb_le, bool_decide_eq_true.
  intros [[[[? ?]|[? ?]]|[? ?]]|Hin]; try lia.
  unfold uri_punctuation, lit in Hin. cbn in Hin.
  repeat (apply elem_of_cons in Hin as [->|Hin]; [lia|]).
  by apply elem_of_nil in Hin.
Qed.

Lemma uri_unescaped_not_surrogate c :
  uri_unescaped c = true -> is_trail_surrogate c = false /\ is_lead_surrogate c = false.
Proof.
  intros H%uri_unescaped_ascii. unfold is_trail_surrogate, is_lead_surrogate.
  split; apply andb_false_iff; left; apply N.leb_gt; lia.
Qed.

(** A key made of unescaped characters only is its own encoding. *)
Lemma encodeURI_uri_safe key : uri_safe key -> encodeURI key = Some key.
Proof.
  induction 1 as [|c r Hc _ IH]; [done|].
  cbn. by rewrite Hc, IH.
Qed.

(** Induction that steps over one or two code units. *)
Lemma jsstring_ind2 (P : jsstring -> Prop) :
  P [] -> (forall c, P [c]) ->
  (forall c d r, P r -> P (d :: r) -> P (c :: d :: r)) ->
  forall s, P s.
Proof.
  intros H0 H1 H2 s. cut (P s /\ forall c, P (c :: s)); [tauto|].
  induction s as [|d r [IHr IHd]]; split; auto.
Qed.

(** [encodeURI] throws exactly at an unpaired surrogate. *)
Lemma encodeURI_is_Some key : is_Some (encodeURI key) <-> well_formed key = true.
Proof.
  induction key as [|c|c d r IHr IHd] using jsstring_ind2.
  - cbn. split; eauto.
  - cbn. destruct (uri_unescaped c) eqn:Hu.
    + destruct (uri_unescaped_not_surrogate c Hu) as [-> ->]. cbn. split; eauto.
    + destruct (is_trail_surrogate c); [split; [intros [? [=]]|done]|].
      destruct (is_lead_surrogate c); [split; [intros [? [=]]|done]|].
      cbn. split; eauto.
  - change (encodeURI (c :: d :: r)) with
      (if uri_unescaped c then (c ::.) <$> encodeURI (d :: r)
       else if is_trail_surrogate c then None
       else if is_lead_surrogate c then
         if is_trail_surrogate d
         then (escape ((c - 55296) * 1024 + (d - 56320) + 65536) ++.) <$> encodeURI r
         else None
       else (escape c ++.) <$> encodeURI (d :: r)).
    change (well_formed (c :: d :: r)) with
      (if is_trail_surrogate c then false
       else if is_lead_surrogate c then is_trail_surrogate d && well_formed r
       else well_formed (d :: r)).
    destruct (uri_unescaped c) eqn:Hu.
    + destruct (uri_unescaped_not_surrogate c Hu) as [-> ->].
      rewrite <- IHd, fmap_is_Some. done.
    + destruct (is_trail_surrogate c); [split; [intros [? [=]]|done]|].
      destruct (is_lead_surrogate c).
      * destruct (is_trail_surrogate d); cbn.
        -- by rewrite <- IHr, fmap_is_Some.
        -- split; [intros [? [=]]|done].
      * by rewrite <- IHd, fmap_is_Some.
Qed.

Lemma strip_trailing_slash_snoc s : strip_trailing_slash (s ++ [47]) = s.
Proof.
  induction s as [|c r IH]; [done|].
  cbn. rewrite IH. by destruct r.
Qed.

Lemma strip_trailing_slash_other s c :
  c <> 47 -> strip_trailing_slash (s ++ [c]) = s ++ [c].
Proof.
  intros Hc. induction s as [|d r IH]; cbn.
  - by apply N.eqb_neq in Hc as ->.
  - rewrite IH. by destruct r.
Qed.

Lemma endsWith_app s suffix : endsWith (s ++ suffix) suffix = true.
Proof.
  unfold endsWith. apply bool_decide_eq_true.
  rewrite length_app, Nat.add_sub. by rewrite drop_app_length.
Qed.

(** *** The blocks of a name are its maximal runs *)

Lemma blocks_concat s : concat (snd <$> blocks s) = s.
Proof.
  induction s as [|c r IH]; [done|]. cbn.
  destruct (blocks r) as [|[w blk] rest]; cbn in *; [by subst|].
  case_bool_decide; cbn; by rewrite <- IH.
Qed.

Lemma blocks_homogeneous s :
  Forall (fun b : bool * jsstring =>
            b.2 <> [] /\ Forall (fun c => is_whitespace c = b.1) b.2) (blocks s).
Proof.
  induction s as [|c r IH]; cbn; [constructor|].
  destruct (blocks r) as [|[w blk] rest]; [repeat constructor; done|].
  inversion IH as [|? ? [Hne Hall] Hrest]; subst; cbn in *.
  case_bool_decide; subst; repeat constructor; cbn; auto.
Qed.

Lemma blocks_alternating s : alternating (blocks s).
Proof.
  induction s as [|c r IH]; cbn; [done|].
  destruct (blocks r) as [|[w blk] rest]; [done|].
  case_bool_decide; subst; cbn in *; [|split; [congruence|]]; done.
Qed.

Lemma replace_ws_from_blocks s :
  replace_ws_from false s = hyphenate (blocks s)
  /\ replace_ws_from true s =
       match blocks s with
       | (true, _) :: rest => hyphenate rest
       | bs => hyphenate bs
       end.
Proof.
  induction s as [|c r [IHf IHt]]; [done|]. cbn.
  destruct (is_whitespace c) eqn:Hc; rewrite ?IHf, ?IHt;
    destruct (blocks r) as [|[[] blk] rest]; done.
Qed.

(** The scan of [replace] yields the name with every run of whitespace
    turned into one hyphen. *)
Lemma replace_ws_blocks s : replace_ws s = hyphenate (blocks s).
Proof. apply replace_ws_from_blocks. Qed.

End StringFacts.

(** ** The object-store client *)

Section ClientFacts.

Variable E : Env.
Implicit Types (this : R2) (key : jsstring) (s : State).

(** [publicUrl] reads the configuration and the key only: the state comes
    back as it was, and the result is the same from any state. *)
Lemma publicUrl_pure this key s s' :
  snd (publicUrl E this key s) = s
  /\ fst (publicUrl E this key s) = fst (publicUrl E this key s').
Proof.
  unfold publicUrl, new_URL_hostname, replace_trailing_slash, bind, lift_option.
  destruct (url_hostname E (ToString (endpoint this))) as [h|]; cbn; [|done].
  destruct (endsWith h r2_domain).
  - destruct (encodeURI key); done.
  - destruct (endpoint this); cbn; [|done].
    destruct (encodeURI key); done.
Qed.

Lemma publicUrl_run this key s :
  publicUrl E this key s = (fst (publicUrl E this key s), s).
Proof.
  destruct (publicUrl_pure this key s s) as [Hs _].
  destruct (publicUrl E this key s); cbn in *; by subst.
Qed.

(** What [publicUrl] throws is the TypeError of [new URL] or of the method
    call on an absent endpoint, or the URIError of [encodeURI]. *)
Lemma publicUrl_throws this key s e :
  fst (publicUrl E this key s) = Thrown e -> e = TypeError \/ e = URIError.
Proof.
  unfold publicUrl, new_URL_hostname, replace_trailing_slash, bind, lift_option.
  destruct (url_hostname E (ToString (endpoint this))) as [h|]; cbn; [|intros [= <-]; auto].
  destruct (endsWith h r2_domain).
  - destruct (encodeURI key); cbn; intros [= <-]; auto.
  - destruct (endpoint this); cbn; [|intros [= <-]; auto].
    destruct (encodeURI key); cbn; intros [= <-]; auto.
Qed.

End ClientFacts.

(** C7 (as amended). With an endpoint that parses as a URL and a key that
    [encodeURI] accepts, [publicUrl(key)] is
    "https://{bucket}.{accountId}.r2.cloudflarestorage.com/" followed by
    [encodeURI(key)] when the hostname ends with ".r2.cloudflarestorage.com",
    and otherwise the configured endpoint with its trailing slash stripped
    (by the constructor and once more by [publicUrl]), "/" and
    [encodeURI(key)]; the encoding is the key itself when every character
    of the key is one that [encodeURI] leaves alone. *)
Theorem publicUrl_encoded (E : Env) (cfg : Cfg) (key e h enc : jsstring) (s : State) :
  cfg_endpoint cfg = Some e ->
  url_hostname E (strip_trailing_slash e) = Some h ->
  encodeURI key = Some enc ->
  publicUrl E (R2_new cfg) key s =
    (Ok (if endsWith h (lit ".r2.cloudflarestorage.com")
         then lit "https://" ++ ToString (cfg_bucket cfg) ++ lit "."
                ++ ToString (cfg_accountId cfg)
                ++ lit ".r2.cloudflarestorage.com" ++ lit "/" ++ enc
         else strip_trailing_slash (strip_trailing_slash e) ++ lit "/" ++ enc), s)
  /\ (uri_safe key -> enc = key).
Proof.
  intros He Hh Henc. split.
  - unfold publicUrl, new_URL_hostname, replace_trailing_slash, bind, lift_option.
    cbn. rewrite He. cbn. rewrite Hh. cbn.
    fold r2_domain. destruct (endsWith h r2_domain); by rewrite Henc.
  - intros Hsafe%encodeURI_uri_safe. congruence.
Qed.

Lemma publicUrl_encoded_witness :
  publicUrl sample_env sample_r2 (lit "uploads/my voice.wav") init
  = (Ok (lit "https://melody4u.acc.r2.cloudflarestorage.com/uploads/my%20voice.wav"), init)
  /\ (uri_safe (lit "uploads/my voice.wav") ->
      lit "uploads/my%20voice.wav" = lit "uploads/my voice.wav").
Proof.
  apply (publicUrl_encoded sample_env sample_cfg
           (lit "uploads/my voice.wav") (lit "https://acc.r2.cloudflarestorage.com")
           (lit "acc.r2.cloudflarestorage.com") (lit "uploads/my%20voice.wav") init);
    reflexivity.
Defined.

(** C7 (as stated) fails: for the key "a b" the URL ends in "a%20b", not
    in the key. *)
Lemma publicUrl_not_verbatim :
  stated_publicUrl sample_env sample_r2 (lit "a b")
    = Some (lit "https://melody4u.acc.r2.cloudflarestorage.com/a b")
  /\ fst (publicUrl sample_env sample_r2 (lit "a b") init)
    = Ok (lit "https://melody4u.acc.r2.cloudflarestorage.com/a%20b")
  /\ Some (lit "https://melody4u.acc.r2.cloudflarestorage.com/a%20b")
     <> stated_publicUrl sample_env sample_r2 (lit "a b").
Proof. repeat split; [vm_compute; congruence]. Qed.

(** C8 (as amended). [publicUrl] makes no call and changes nothing, and its
    result depends on the configuration and the key only, so that two calls
    with the same key agree. It returns a string exactly when the endpoint
    kept by the constructor parses as a URL, the key holds no unpaired
    surrogate and, off the r2.cloudflarestorage.com domain, an endpoint is
    configured at all; otherwise it throws when called. *)
Theorem publicUrl_deterministic (E : Env) (cfg : Cfg) (key : jsstring) (s s' : State) :
  snd (publicUrl E (R2_new cfg) key s) = s
  /\ fst (publicUrl E (R2_new cfg) key s) = fst (publicUrl E (R2_new cfg) key s')
  /\ ((exists url, fst (publicUrl E (R2_new cfg) key s) = Ok url) <->
      (exists h, url_hostname E (ToString (endpoint (R2_new cfg))) = Some h
                 /\ well_formed key = true
                 /\ (endsWith h (lit ".r2.cloudflarestorage.com") = true
                     \/ cfg_endpoint cfg <> None))).
Proof.
  set (this := R2_new cfg).
  destruct (publicUrl_pure E this key s s') as [Hs Hr]. do 2 (split; [done|]).
  setoid_rewrite <- encodeURI_is_Some. fold r2_domain.
  unfold publicUrl, new_URL_hostname, replace_trailing_slash, bind, lift_option.
  destruct (url_hostname E (ToString (endpoint this))) as [h|]; cbn;
    [|split; [intros [? [=]]|intros (? & [=] & _)]].
  destruct (endsWith h r2_domain) eqn:Hd.
  - destruct (encodeURI key) as [enc|]; cbn.
    + split; [intros _|]; eauto 10.
    + split; [intros [? [=]]|intros (? & _ & [? [=]] & _)].
  - destruct (cfg_endpoint cfg) as [e|]; cbn.
    + destruct (encodeURI key) as [enc|]; cbn.
      * split; [intros _|]; eauto 10.
      * split; [intros [? [=]]|intros (? & _ & [? [=]] & _)].
    + split; [intros [? [=]]|intros (? & [= <-] & _ & [?|?])]; congruence.
Qed.

(** C8 (as stated) fails: the constructor takes a configuration without an
    endpoint, as when the R2 variables are not set, and every call of
    [publicUrl] then throws. *)
Lemma publicUrl_throws_without_endpoint :
  endpoint (R2_new unset_cfg) = None
  /\ fst (publicUrl sample_env (R2_new unset_cfg)
            (lit "output/3f2b8c1e-7d4a-4c6b-9e0f-1a2b3c4d5e61.mp3") init)
     = Thrown TypeError.
Proof. split; reflexivity. Qed.

(** C9. With the expiry left out, [signedUrl(key)] asks the presigner for a
    grant on that key with [expiresIn] 300 seconds, which is five minutes
    and within the range of five to ten minutes. *)
Theorem signedUrl_default_ttl (E : Env) (this : R2) (key : JSValue) (s : State) :
  calls (snd (signedUrl E this key None s))
    = calls s ++ [EvGetSignedUrl {| get_Bucket := bucket this; get_Key := key |} 300]
  /\ fst (signedUrl E this key None s)
     = match presign E (length (calls s))
               {| get_Bucket := bucket this; get_Key := key |} 300 with
       | Some url => Ok url
       | None => Thrown PresignError
       end
  /\ 5 * 60 <= 300 <= 10 * 60.
Proof.
  set (cmd := {| get_Bucket := bucket this; get_Key := key |}). unfold signedUrl, getSignedUrl, bind, log, lift_option. cbn.
  fold cmd. destruct (presign E (length (calls s)) cmd 300); cbn; repeat split; lia.
Qed.

(** ** The render handler *)

Lemma Ok_inj {A} (a b : A) : Ok a = Ok b -> a = b.
Proof. congruence. Qed.

Lemma or_undefined_mpeg : or_undefined (Some (lit "audio/mpeg")) = Some (lit "audio/mpeg").
Proof. reflexivity. Qed.

Lemma or_undefined_idem v : or_undefined (or_undefined v) = or_undefined v.
Proof. by destruct v as [[|]|]. Qed.

#[local] Arguments publicUrl : simpl never.
#[local] Arguments or_undefined : simpl never.

(** One step along the handler: case analysis on what a collaborator
    answers. *)
Ltac path_step E :=
  match goal with
  | H : presign E ?n ?c ?t = _ |- context [presign E ?n ?c ?t] => rewrite H
  | |- context [truthy ?v] => destruct (truthy v) eqn:?
  | |- context [presign E ?n ?c ?t] => destruct (presign E n c t) eqn:?
  | |- context [ffmpeg_run E ?n ?c] => destruct (ffmpeg_run E n c) as [?|[?|]] eqn:?
  | |- context [store_accepts E ?n ?c] => destruct (store_accepts E n c) eqn:?
  | |- context [unlink_fails E ?n ?p] => destruct (unlink_fails E n p) eqn:?
  | |- context [publicUrl E ?r ?k ?s] =>
      rewrite (publicUrl_run E r k s); destruct (fst (publicUrl E r k s)) eqn:?
  | |- context [<[?p:=?v]> ?m !! ?p] => rewrite (lookup_insert_eq m p v)
  end.

Ltac count_calls := rewrite ?length_app; cbn [length]; rewrite ?Nat.add_1_r.

Ltac handler_paths E :=
  unfold post_render, render_try, post_upload, upload_try, try_catch, bind, signedUrl,
    getSignedUrl, putObject, client_send, ffmpeg_save, readFile, unlinkSync,
    console_error, uuidv4, log, ret, throw, lift_option;
  rewrite ?or_undefined_idem, ?or_undefined_mpeg;
  cbn; count_calls; repeat (path_step E; cbn; count_calls).

(** The calls of a finished path, set against the calls made before. *)
Ltac new_calls :=
  rewrite <- ?app_assoc;
  first [ eexists; split; [reflexivity|]
        | exists []; split; [symmetry; apply app_nil_r|] ];
  cbn.

Lemma mix_command_as_specified vUrl mUrl dir name :
  mixes_as_specified (mix_command vUrl mUrl (dir ++ lit "/" ++ lit "mix-" ++ name ++ lit ".mp3")).
Proof.
  split; [|split].
  - exists mix_filter. split; reflexivity.
  - reflexivity.
  - cbn -[endsWith]. rewrite !(assoc_L (++)). apply endsWith_app.
Qed.

Section RenderFacts.

Variables (E : Env) (r2 : R2).
Implicit Types (req : JSValue) (s : State).

(** The handler always answers. *)
Lemma post_render_answers req s : exists resp, fst (post_render E r2 req s) = Ok resp.
Proof. handler_paths E; eauto. Qed.

(** The temporary file is removed only after the store took the upload:
    no path on which a step before that failed calls [unlinkSync]. *)
Lemma render_unlinks_only_after_upload req s :
  exists tr,
    calls (snd (post_render E r2 req s)) = calls s ++ tr
    /\ (unlink_calls tr = []
        \/ exists n cmd, store_writes tr = [cmd] /\ store_accepts E n cmd = true).
Proof.
  handler_paths E; new_calls; eauto.
Qed.

(** A failure of [unlinkSync] is swallowed: once the removal has been
    tried, no file-system error reaches the [catch] of the handler. *)
Lemma render_unlink_error_swallowed req s :
  exists tr,
    calls (snd (post_render E r2 req s)) = calls s ++ tr
    /\ (unlink_calls tr = [] \/ forall label, EvConsoleError label IoError ∉ tr).
Proof.
  handler_paths E; new_calls; auto.
  all: right; intros label Hin.
  all: repeat match goal with
         | H : fst (publicUrl _ _ _ _) = Thrown _ |- _ =>
             apply publicUrl_throws in H as [-> | ->]
         end.
  all: repeat (apply elem_of_cons in Hin as [Hin|Hin]; [discriminate Hin|]).
  all: by apply elem_of_nil in Hin.
Qed.

End RenderFacts.

(** C4. When [voiceKey] or [musicKey] is absent or the empty string (as in
    the empty body), the answer is status 400 with
    [{ok: false, error: "Missing voiceKey or musicKey"}] and the state is
    the one before: no presigned URL asked, nothing sent to the store, no
    ffmpeg run. *)
Theorem render_missing_key (E : Env) (r2 : R2) (req : JSValue) (s : State) :
  absent_or_empty (get_prop (js_or req (JObj [])) (lit "voiceKey"))
  \/ absent_or_empty (get_prop (js_or req (JObj [])) (lit "musicKey")) ->
  post_render E r2 req s =
    (Ok {| status := 400;
           body := JObj [(lit "ok", JBool false);
                         (lit "error", JStr (lit "Missing voiceKey or musicKey"))] |},
     s).
Proof.
  intros H. unfold post_render, render_try, try_catch.
  assert (negb (truthy (get_prop (js_or req (JObj [])) (lit "voiceKey")))
          || negb (truthy (get_prop (js_or req (JObj [])) (lit "musicKey"))) = true) as ->;
    [|done].
  apply orb_true_iff.
  destruct H as [[-> | ->] | [-> | ->]]; auto.
Qed.

Lemma render_missing_key_witness :
  post_render sample_env sample_r2 (JObj []) init =
    (Ok {| status := 400;
           body := JObj [(lit "ok", JBool false);
                         (lit "error", JStr (lit "Missing voiceKey or musicKey"))] |},
     init).
Proof.
  apply (render_missing_key sample_env sample_r2 (JObj []) init).
  left. left. reflexivity.
Defined.

(** C5. Every ffmpeg run of a render request takes the presigned URL of
    [voiceKey] as first input and that of [musicKey] as second, with the
    filter graph volume=1.0 on the first, volume=0.8 on the second and
    amix of the two with duration=shortest and dropout_transition=0, and
    with the output options 2 channels, 44100 Hz, 192k into an .mp3 file;
    there is one such run when the request passes validation and both URLs
    are issued, and none otherwise. *)
Theorem render_pipeline_fixed (E : Env) (r2 : R2) (req : JSValue) (s : State) :
  exists tr,
    calls (snd (post_render E r2 req s)) = calls s ++ tr
    /\ Forall (fun cmd =>
                 (exists vUrl mUrl,
                     ff_inputs cmd = [vUrl; mUrl]
                     /\ presign E (length (calls s))
                          {| get_Bucket := bucket r2;
                             get_Key := get_prop (js_or req (JObj [])) (lit "voiceKey") |}
                          600 = Some vUrl
                     /\ presign E (S (length (calls s)))
                          {| get_Bucket := bucket r2;
                             get_Key := get_prop (js_or req (JObj [])) (lit "musicKey") |}
                          600 = Some mUrl)
                 /\ mixes_as_specified cmd)
         (pipeline_calls tr)
    /\ length (pipeline_calls tr) =
         if truthy (get_prop (js_or req (JObj [])) (lit "voiceKey"))
            && truthy (get_prop (js_or req (JObj [])) (lit "musicKey"))
            && bool_decide (is_Some (presign E (length (calls s))
                 {| get_Bucket := bucket r2;
                    get_Key := get_prop (js_or req (JObj [])) (lit "voiceKey") |} 600))
            && bool_decide (is_Some (presign E (S (length (calls s)))
                 {| get_Bucket := bucket r2;
                    get_Key := get_prop (js_or req (JObj [])) (lit "musicKey") |} 600))
         then 1%nat else 0%nat.
Proof.
  handler_paths E; new_calls.
  all: rewrite ?andb_false_r; (split; [|done]); try solve [constructor].
  all: constructor; [|constructor].
  all: split; [eauto|apply mix_command_as_specified].
Qed.

(** C6 (as amended). A request that passes validation asks for a signed URL
    of [voiceKey] once and, when that one is issued, for a signed URL of
    [musicKey] once (when it is refused, for none); every such request
    names that single key and the expiry 600 seconds. *)
Theorem render_presign_requests (E : Env) (r2 : R2) (req : JSValue) (s : State) :
  truthy (get_prop (js_or req (JObj [])) (lit "voiceKey")) = true ->
  truthy (get_prop (js_or req (JObj [])) (lit "musicKey")) = true ->
  exists tr,
    calls (snd (post_render E r2 req s)) = calls s ++ tr
    /\ presign_calls tr =
         ({| get_Bucket := bucket r2;
             get_Key := get_prop (js_or req (JObj [])) (lit "voiceKey") |}, 600)
         :: match presign E (length (calls s))
                    {| get_Bucket := bucket r2;
                       get_Key := get_prop (js_or req (JObj [])) (lit "voiceKey") |} 600 with
            | Some _ =>
                [({| get_Bucket := bucket r2;
                     get_Key := get_prop (js_or req (JObj [])) (lit "musicKey") |}, 600)]
            | None => []
            end.
Proof.
  intros Hv Hm. unfold post_render, render_try. rewrite Hv, Hm. cbn [negb orb].
  handler_paths E; new_calls; done.
Qed.

Lemma render_presign_requests_witness :
  exists tr,
    calls (snd (post_render sample_env sample_r2 sample_body init)) = calls init ++ tr
    /\ presign_calls tr =
         [({| get_Bucket := Some (lit "melody4u");
              get_Key := JStr (lit "uploads/abc-voice.wav") |}, 600);
          ({| get_Bucket := Some (lit "melody4u");
              get_Key := JStr (lit "uploads/def-music.wav") |}, 600)].
Proof.
  apply (render_presign_requests sample_env sample_r2 sample_body init); reflexivity.
Defined.

(** C6 (as stated) fails: when the presigner refuses the first request (as
    it does without credentials), the request has passed validation and no
    signed URL is asked for [musicKey]. *)
Lemma render_no_second_presign_after_refusal :
  truthy (get_prop sample_body (lit "voiceKey")) = true
  /\ truthy (get_prop sample_body (lit "musicKey")) = true
  /\ presign_calls
       (calls (snd (post_render (scenario false (FfEnd mixed_audio) true)
                      (R2_new unset_cfg) sample_body init)))
     = [({| get_Bucket := None; get_Key := JStr (lit "uploads/abc-voice.wav") |}, 600)].
Proof. repeat split. Qed.

(** C3 (as amended). A render request answered with status 200 gets
    [{ok: true, outKey, url}]: the key is "output/<uuid>.mp3" for a uuid
    drawn for it, [url] is [publicUrl] of that key, and the staged bytes
    were sent to the store once, under that key, as audio/mpeg. *)
Theorem render_success_response (E : Env) (r2 : R2) (req : JSValue)
    (s s' : State) (resp : Response) :
  post_render E r2 req s = (Ok resp, s') ->
  status resp = 200 ->
  exists url staged tr,
    body resp = JObj [(lit "ok", JBool true);
                      (lit "outKey",
                       JStr (lit "output/" ++ uuidv4_at E (S (uuid_count s)) ++ lit ".mp3"));
                      (lit "url", JStr url)]
    /\ fst (publicUrl E r2 (lit "output/" ++ uuidv4_at E (S (uuid_count s)) ++ lit ".mp3") s')
       = Ok url
    /\ calls s' = calls s ++ tr
    /\ store_writes tr =
         [{| put_Bucket := bucket r2;
             put_Key := lit "output/" ++ uuidv4_at E (S (uuid_count s)) ++ lit ".mp3";
             put_Body := staged;
             put_ContentType := Some (lit "audio/mpeg") |}]
    /\ objects s' !! (lit "output/" ++ uuidv4_at E (S (uuid_count s)) ++ lit ".mp3")
       = Some {| obj_body := staged; obj_type := Some (lit "audio/mpeg") |}.
Proof.
  intros Hrun Hstatus.
  assert (s' = snd (post_render E r2 req s)) as -> by (by rewrite Hrun).
  assert (fst (post_render E r2 req s) = Ok resp) as Hresp by (by rewrite Hrun).
  clear Hrun.
  rewrite (proj2 (publicUrl_pure E r2 _ (snd (post_render E r2 req s)) s)).
  remember (fst (publicUrl E r2 _ s)) as derived eqn:Hderived.
  revert resp Hresp Hstatus.
  handler_paths E.
  all: intros resp <-%Ok_inj Hstatus; try discriminate Hstatus.
  all: rewrite <- ?app_assoc.
  all: do 3 eexists; split; [reflexivity|].
  all: split;
    [match goal with
     | H : fst (publicUrl ?env ?r ?k ?st) = Ok _, H' : _ = fst (publicUrl _ _ _ ?st0) |- _ =>
         rewrite H', (proj2 (publicUrl_pure env r k st0 st)); exact H
     end|].
  all: split; [reflexivity|].
  all: split; [reflexivity|first [reflexivity|apply lookup_insert_eq]].
Qed.

Lemma render_success_response_witness :
  exists url staged tr,
    body sample_success
    = JObj [(lit "ok", JBool true);
            (lit "outKey",
             JStr (lit "output/" ++ uuidv4_at sample_env (S (uuid_count init)) ++ lit ".mp3"));
            (lit "url", JStr url)]
    /\ fst (publicUrl sample_env sample_r2
              (lit "output/" ++ uuidv4_at sample_env (S (uuid_count init)) ++ lit ".mp3")
              (snd (post_render sample_env sample_r2 sample_body init)))
       = Ok url
    /\ calls (snd (post_render sample_env sample_r2 sample_body init)) = calls init ++ tr
    /\ store_writes tr =
         [{| put_Bucket := bucket sample_r2;
             put_Key := lit "output/" ++ uuidv4_at sample_env (S (uuid_count init)) ++ lit ".mp3";
             put_Body := staged;
             put_ContentType := Some (lit "audio/mpeg") |}]
    /\ objects (snd (post_render sample_env sample_r2 sample_body init))
         !! (lit "output/" ++ uuidv4_at sample_env (S (uuid_count init)) ++ lit ".mp3")
       = Some {| obj_body := staged; obj_type := Some (lit "audio/mpeg") |}.
Proof.
  apply (render_success_response sample_env sample_r2 sample_body init
           (snd (post_render sample_env sample_r2 sample_body init)) sample_success).
  - vm_compute. reflexivity.
  - reflexivity.
Defined.

(** C3 (as stated) fails: the answer to a successful render carries the key
    under the name [outKey]; it has no property [outputKey]. *)
Lemma render_success_has_no_outputKey :
  fst (post_render sample_env sample_r2 sample_body init) = Ok sample_success
  /\ status sample_success = 200
  /\ get_prop (body sample_success) (lit "outKey")
     = JStr (lit "output/3f2b8c1e-7d4a-4c6b-9e0f-1a2b3c4d5e61.mp3")
  /\ get_prop (body sample_success) (lit "outputKey") = JUndefined.
Proof. repeat split; vm_compute; reflexivity. Qed.

(** C1 (the code at the failing input). ffmpeg ends, the store refuses the
    upload: the answer is status 500, [unlinkSync] is never called and the
    staged file is still in the temporary directory. *)
Theorem render_upload_failure_keeps_staged_file :
  fst (post_render (scenario true (FfEnd mixed_audio) false) sample_r2 sample_body init)
  = Ok {| status := 500;
          body := JObj [(lit "ok", JBool false); (lit "error", JStr (lit "Render failed"))] |}
  /\ store_writes
       (calls (snd (post_render (scenario true (FfEnd mixed_audio) false) sample_r2
                      sample_body init)))
     = [{| put_Bucket := Some (lit "melody4u");
           put_Key := lit "output/3f2b8c1e-7d4a-4c6b-9e0f-1a2b3c4d5e61.mp3";
           put_Body := mixed_audio;
           put_ContentType := Some (lit "audio/mpeg") |}]
  /\ unlink_calls
       (calls (snd (post_render (scenario true (FfEnd mixed_audio) false) sample_r2
                      sample_body init)))
     = []
  /\ files (snd (post_render (scenario true (FfEnd mixed_audio) false) sample_r2
                   sample_body init))
       !! lit "/tmp/mix-3f2b8c1e-7d4a-4c6b-9e0f-1a2b3c4d5e60.mp3"
     = Some mixed_audio.
Proof. repeat split; vm_compute; reflexivity. Qed.

(** C2 (the code at the failing input). ffmpeg fails after creating a
    partial file: nothing is sent to the store, the answer is status 500,
    and [unlinkSync] is never called, so the partial file stays. *)
Theorem render_pipeline_failure_keeps_partial_file :
  fst (post_render (scenario true (FfError (Some [Byte.x49])) true) sample_r2
         sample_body init)
  = Ok {| status := 500;
          body := JObj [(lit "ok", JBool false); (lit "error", JStr (lit "Render failed"))] |}
  /\ store_writes
       (calls (snd (post_render (scenario true (FfError (Some [Byte.x49])) true) sample_r2
                      sample_body init)))
     = []
  /\ objects (snd (post_render (scenario true (FfError (Some [Byte.x49])) true) sample_r2
                     sample_body init))
     = ∅
  /\ unlink_calls
       (calls (snd (post_render (scenario true (FfError (Some [Byte.x49])) true) sample_r2
                      sample_body init)))
     = []
  /\ files (snd (post_render (scenario true (FfError (Some [Byte.x49])) true) sample_r2
                   sample_body init))
       !! lit "/tmp/mix-3f2b8c1e-7d4a-4c6b-9e0f-1a2b3c4d5e60.mp3"
     = Some [Byte.x49].
Proof. repeat split; vm_compute; reflexivity. Qed.

(** ** The upload handler *)

(** The name the handler computes is the name as the specification words
    it. *)
Lemma upload_name_spec (original : option jsstring) :
  replace_ws (or_string original (lit "upload.bin")) = spec_upload_name original.
Proof.
  destruct original as [[|c r]|]; [reflexivity| |reflexivity].
  apply replace_ws_blocks.
Qed.

(** C10. An upload with a file sends it to the store once, under the key
    "uploads/<uuid>-<name>", where <name> is the original file name with
    every run of whitespace turned into one hyphen, or "upload.bin" when no
    name came with the file (none or the empty one); the answer to a stored
    upload carries that key. Without a file the answer is status 400 with
    [{ok: false, error: "Missing file"}] and nothing is sent. *)
Theorem upload_key (E : Env) (r2 : R2) (s : State) :
  post_upload E r2 None s =
    (Ok {| status := 400;
           body := JObj [(lit "ok", JBool false); (lit "error", JStr (lit "Missing file"))] |},
     s)
  /\ forall f : File,
      exists tr,
        calls (snd (post_upload E r2 (Some f) s)) = calls s ++ tr
        /\ store_writes tr =
             [{| put_Bucket := bucket r2;
                 put_Key := lit "uploads/" ++ uuidv4_at E (uuid_count s) ++ lit "-"
                              ++ spec_upload_name (originalname f);
                 put_Body := buffer f;
                 put_ContentType := or_undefined (mimetype f) |}]
        /\ forall resp,
             fst (post_upload E r2 (Some f) s) = Ok resp ->
             status resp = 200 ->
             exists url,
               body resp =
                 JObj [(lit "ok", JBool true);
                       (lit "key",
                        JStr (lit "uploads/" ++ uuidv4_at E (uuid_count s) ++ lit "-"
                                ++ spec_upload_name (originalname f)));
                       (lit "url", JStr url)].
Proof.
  split; [reflexivity|].
  intros f. rewrite <- upload_name_spec.
  handler_paths E; new_calls.
  all: split; [reflexivity|].
  all: intros resp <-%Ok_inj Hstatus; try discriminate Hstatus; eauto.
Qed.

(** ** Sample runs *)

Example encodeURI_space : encodeURI (lit "a b") = Some (lit "a%20b").
Proof. reflexivity. Qed.

Example encodeURI_two_octets : encodeURI [233] = Some (lit "%C3%A9").
Proof. reflexivity. Qed.

Example encodeURI_surrogate_pair : encodeURI [55357; 56832] = Some (lit "%F0%9F%98%80").
Proof. reflexivity. Qed.

Example encodeURI_lone_surrogate : encodeURI (lit "a" ++ [55357]) = None.
Proof. reflexivity. Qed.

Example replace_ws_runs :
  replace_ws (lit "my  voice" ++ [9; 32] ++ lit "take 1.wav") = lit "my-voice-take-1.wav".
Proof. reflexivity. Qed.

Example hostname_r2 :
  URL_hostname (lit "https://acc.r2.cloudflarestorage.com") = Some (lit "acc.r2.cloudflarestorage.com").
Proof. reflexivity. Qed.

Example hostname_custom :
  URL_hostname (lit "HTTPS://CDN.Example.com:8443/media") = Some (lit "cdn.example.com").
Proof. reflexivity. Qed.

Example hostname_undefined : URL_hostname (ToString None) = None.
Proof. reflexivity. Qed.

(** A custom domain with a trailing slash: the constructor strips it. *)
Example publicUrl_custom_domain :
  fst (publicUrl sample_env
         (R2_new {| cfg_accountId := Some (lit "acc");
                    cfg_accessKeyId := None;
                    cfg_secretAccessKey := None;
                    cfg_bucket := Some (lit "melody4u");
                    cfg_endpoint := Some (lit "https://cdn.example.com/") |})
         (lit "uploads/a.wav") init)
  = Ok (lit "https://cdn.example.com/uploads/a.wav").
Proof. reflexivity. Qed.

(** A request without a body is answered like the empty body. *)
Example render_no_body :
  fst (post_render sample_env sample_r2 JUndefined init)
  = Ok {| status := 400;
          body := JObj [(lit "ok", JBool false);
                        (lit "error", JStr (lit "Missing voiceKey or musicKey"))] |}.
Proof. reflexivity. Qed.

(** On the path where everything works the staged file is removed. *)
Example render_success_removes_staged_file :
  unlink_calls (calls (snd (post_render sample_env sample_r2 sample_body init)))
  = [lit "/tmp/mix-3f2b8c1e-7d4a-4c6b-9e0f-1a2b3c4d5e60.mp3"]
  /\ files (snd (post_render sample_env sample_r2 sample_body init))
       !! lit "/tmp/mix-3f2b8c1e-7d4a-4c6b-9e0f-1a2b3c4d5e60.mp3" = None.
Proof. split; vm_compute; reflexivity. Qed.

Example upload_sample :
  fst (post_upload sample_env sample_r2
         (Some {| originalname := Some (lit "my voice.wav");
                  buffer := mixed_audio;
                  mimetype := Some (lit "audio/wav") |}) init)
  = Ok {| status := 200;
          body := JObj [(lit "ok", JBool true);
                        (lit "key",
                         JStr (lit "uploads/3f2b8c1e-7d4a-4c6b-9e0f-1a2b3c4d5e60-my-voice.wav"));
                        (lit "url",
                         JStr (lit "https://melody4u.acc.r2.cloudflarestorage.com/uploads/3f2b8c1e-7d4a-4c6b-9e0f-1a2b3c4d5e60-my-voice.wav"))] |}.
Proof. vm_compute. reflexivity. Qed.


(** * Further properties of the code *)

(** A property of every element of a list that is written out. *)
Ltac not_in_list_eq H :=
  repeat (apply elem_of_cons in H as [->|H]; [reflexivity|]);
  by apply elem_of_nil in H.

(** ** File names: [replace(/\s+/g, '-')] *)

Lemma replace_ws_from_no_whitespace (b : bool) (s : jsstring) :
  no_whitespace (replace_ws_from b s).
Proof.
  revert b. induction s as [|c r IH]; intros b; cbn; [constructor|].
  destruct (is_whitespace c) eqn:Hc.
  - destruct b; [apply IH|]. constructor; [reflexivity|apply IH].
  - constructor; [exact Hc|apply IH].
Qed.

Lemma replace_ws_from_unchanged (b : bool) (s : jsstring) :
  no_whitespace s -> replace_ws_from b s = s.
Proof.
  intros H. revert b. induction H as [|c r Hc _ IH]; intros b; cbn; [done|].
  by rewrite Hc, IH.
Qed.

(** X1. The key of an upload holds no whitespace character, whatever the
    original file name was, as long as the uuid holds none. *)
Theorem upload_key_no_whitespace (E : Env) (s : State) (f : File) :
  no_whitespace (uuidv4_at E (uuid_count s)) ->
  no_whitespace (upload_key_of E s f).
Proof.
  intros Huuid. unfold upload_key_of, no_whitespace. rewrite !Forall_app.
  split; [|split; [exact Huuid|split; [|apply replace_ws_from_no_whitespace]]].
  - apply Forall_forall. intros c Hc. vm_compute in Hc. not_in_list_eq Hc.
  - apply Forall_forall. intros c Hc. vm_compute in Hc. not_in_list_eq Hc.
Qed.

Lemma upload_key_no_whitespace_witness :
  no_whitespace (upload_key_of sample_env init sample_file).
Proof.
  apply (upload_key_no_whitespace sample_env init sample_file).
  apply Forall_forall. intros c Hc. vm_compute in Hc. not_in_list_eq Hc.
Defined.

(** X2. A name without whitespace is taken over unchanged. *)
Theorem replace_ws_unchanged (s : jsstring) : no_whitespace s -> replace_ws s = s.
Proof. apply replace_ws_from_unchanged. Qed.

Lemma replace_ws_unchanged_witness :
  replace_ws (lit "voice-take_1.wav") = lit "voice-take_1.wav".
Proof.
  apply (replace_ws_unchanged (lit "voice-take_1.wav")).
  unfold no_whitespace. apply Forall_forall. intros c Hc.
  vm_compute in Hc. repeat (apply elem_of_cons in Hc as [->|Hc]; [reflexivity|]).
  by apply elem_of_nil in Hc.
Defined.

(** X3. Replacing twice changes nothing more: the replacement is
    idempotent. *)
Theorem replace_ws_idempotent (s : jsstring) :
  replace_ws (replace_ws s) = replace_ws s.
Proof. apply replace_ws_from_unchanged, replace_ws_from_no_whitespace. Qed.

(** X4. The replacement never makes a name longer, and it keeps the length
    exactly when no two whitespace characters stand side by side. *)
Theorem replace_ws_length (s : jsstring) :
  (length (replace_ws s) <= length s)%nat
  /\ (length (replace_ws s) = length s <->
      Forall (fun b : bool * jsstring => b.1 = true -> length b.2 = 1%nat) (blocks s)).
Proof.
  rewrite replace_ws_blocks.
  pose proof (blocks_concat s) as Hc. pose proof (blocks_homogeneous s) as Hh.
  rewrite <- Hc at 2 4. clear Hc.
  induction (blocks s) as [|[w blk] bs IH]; [split; [done|split; [constructor|done]]|].
  inversion Hh as [|? ? [Hne _] Hrest]; subst. destruct (IH Hrest) as [IHle IHeq].
  unfold hyphenate in *. cbn [fmap list_fmap concat fst snd] in *.
  rewrite !length_app.
  assert (1 <= length blk)%nat by (destruct blk; [done|cbn; lia]).
  destruct w; cbn [length].
  - split; [lia|]. rewrite Forall_cons. cbn [fst snd]. split.
    + intros Heq. split; [intros _; lia|]. apply IHeq. lia.
    + intros [H1 H2]. specialize (H1 eq_refl). apply IHeq in H2. lia.
  - split; [lia|]. rewrite Forall_cons. cbn [fst snd]. split.
    + intros Heq. split; [done|]. apply IHeq. lia.
    + intros [_ H2]. apply IHeq in H2. lia.
Qed.

(** ** Endpoints: [replace(/\/$/, '')] *)

(** Exactly one trailing slash is removed: a string that ends with "/"
    loses its last character, any other string is unchanged. *)
Lemma strip_trailing_slash_spec (s : jsstring) :
  strip_trailing_slash s
  = if endsWith s (lit "/") then take (length s - 1) s else s.
Proof.
  induction s as [|c r _] using rev_ind; [reflexivity|].
  unfold endsWith. rewrite length_app. cbn [length].
  change (lit "/") with [47]. cbn [length].
  replace (length r + 1 - 1)%nat with (length r) by lia.
  rewrite drop_app_length, take_app_length.
  destruct (decide (c = 47)) as [->|Hne].
  - rewrite strip_trailing_slash_snoc. by rewrite bool_decide_eq_true_2.
  - rewrite strip_trailing_slash_other by done.
    rewrite bool_decide_eq_false_2; [done|]. intros [= ?]. done.
Qed.

(** X5. The constructor keeps a configured endpoint without its last
    character when that is a slash and unchanged otherwise (one slash is
    removed, not all), keeps an absent endpoint absent, and hands the same
    endpoint to the S3 client. *)
Theorem R2_new_endpoint (cfg : Cfg) :
  endpoint (R2_new cfg)
  = (fun e => if endsWith e (lit "/") then take (length e - 1) e else e) <$> cfg_endpoint cfg
  /\ s3_endpoint (client (R2_new cfg)) = endpoint (R2_new cfg).
Proof.
  split; [|reflexivity]. cbn.
  destruct (cfg_endpoint cfg) as [e|]; [|reflexivity].
  cbn. f_equal. apply strip_trailing_slash_spec.
Qed.

(** ** Keys in URLs: [encodeURI] *)

Lemma hex_digit_unescaped (d : N) : d < 16 -> uri_unescaped (hex_digit d) = true.
Proof.
  intros Hd. unfold uri_unescaped, hex_digit, is_alpha, is_digit.
  rewrite !orb_true_iff, !andb_true_iff, !N.leb_le.
  destruct (d <? 10) eqn:H10.
  - apply N.ltb_lt in H10. left. right. lia.
  - apply N.ltb_ge in H10. left. left. left. lia.
Qed.

Lemma percent_url_chars (o : N) : o < 256 -> Forall url_char (percent o).
Proof.
  intros Ho. unfold percent.
  apply Forall_cons_2; [by right|].
  apply Forall_cons_2; [left; apply hex_digit_unescaped, N.Div0.div_lt_upper_bound; lia|].
  apply Forall_cons_2; [left; apply hex_digit_unescaped, N.mod_lt; lia|].
  apply Forall_nil_2.
Qed.

Lemma utf8_octets (cp : N) : cp < 1114112 -> Forall (fun o => o < 256) (utf8 cp).
Proof.
  intros Hcp. unfold utf8.
  repeat (case_match; [repeat constructor; try lia|]);
    repeat match goal with H : (_ <? _) = _ |- _ => first [apply N.ltb_lt in H|apply N.ltb_ge in H] end.
  all: try (repeat constructor).
  all: try (pose proof (N.mod_lt cp 64); pose proof (N.mod_lt (cp / 64) 64);
            pose proof (N.mod_lt (cp / 4096) 64); lia).
  all: try (assert (cp / 64 < 32) by (apply N.Div0.div_lt_upper_bound; lia); lia).
  all: try (assert (cp / 4096 < 16) by (apply N.Div0.div_lt_upper_bound; lia); lia).
  all: try (assert (cp / 262144 < 8) by (apply N.Div0.div_lt_upper_bound; lia); lia).
Qed.

Lemma escape_url_chars (cp : N) : cp < 1114112 -> Forall url_char (escape cp).
Proof.
  intros Hcp%utf8_octets. unfold escape.
  induction Hcp as [|o os Ho _ IH]; cbn [map concat]; [constructor|].
  apply Forall_app. split; [by apply percent_url_chars|exact IH].
Qed.

Lemma pair_code_point (c d : N) :
  is_lead_surrogate c = true -> is_trail_surrogate d = true ->
  65536 <= (c - 55296) * 1024 + (d - 56320) + 65536 < 1114112.
Proof.
  unfold is_lead_surrogate, is_trail_surrogate.
  rewrite !andb_true_iff, !N.leb_le. lia.
Qed.

(** The first step of [encodeURI], spelled out for a string of two code
    units or more. *)
Lemma encodeURI_cons2 (c d : N) (r : jsstring) :
  encodeURI (c :: d :: r)
  = if uri_unescaped c then (c ::.) <$> encodeURI (d :: r)
    else if is_trail_surrogate c then None
    else if is_lead_surrogate c then
      if is_trail_surrogate d
      then (escape ((c - 55296) * 1024 + (d - 56320) + 65536) ++.) <$> encodeURI r
      else None
    else (escape c ++.) <$> encodeURI (d :: r).
Proof. reflexivity. Qed.

(** The encoding of a key is made of the characters [encodeURI] copies
    and of percent signs only; all of them are ASCII. *)
Lemma encodeURI_alphabet (s enc : jsstring) :
  code_units s -> encodeURI s = Some enc ->
  Forall url_char enc /\ Forall (fun c => c < 128) enc.
Proof.
  intros Hs Henc.
  assert (Forall url_char enc) as Hurl.
  { revert enc Hs Henc.
    induction s as [|c|c d r IHr IHd] using jsstring_ind2; intros enc Hs.
    - intros [= <-]. constructor.
    - inversion Hs as [|? ? Hc _]; subst. cbn.
      destruct (uri_unescaped c) eqn:Hu;
        [intros [= <-]; apply Forall_cons_2; [by left|apply Forall_nil_2]|].
      destruct (is_trail_surrogate c); [done|].
      destruct (is_lead_surrogate c); [done|].
      intros [= <-]. rewrite app_nil_r. apply escape_url_chars. lia.
    - inversion Hs as [|? ? Hc Hdr]; subst. inversion Hdr as [|? ? Hd Hr]; subst.
      rewrite encodeURI_cons2.
      destruct (uri_unescaped c) eqn:Hu.
      { destruct (encodeURI (d :: r)) as [e|] eqn:He; [|done].
        intros [= <-]. apply Forall_cons_2; [by left|]. by apply IHd. }
      destruct (is_trail_surrogate c); [done|].
      destruct (is_lead_surrogate c) eqn:Hlead.
      + destruct (is_trail_surrogate d) eqn:Htrail; [|done].
        destruct (encodeURI r) as [e|] eqn:He; [|done].
        intros [= <-]. apply Forall_app. split; [|by apply IHr].
        apply escape_url_chars. pose proof (pair_code_point c d Hlead Htrail). lia.
      + destruct (encodeURI (d :: r)) as [e|] eqn:He; [|done].
        intros [= <-]. apply Forall_app. split; [|by apply IHd].
        apply escape_url_chars. lia. }
  split; [exact Hurl|].
  eapply Forall_impl; [exact Hurl|].
  intros c [Hc%uri_unescaped_ascii| ->]; lia.
Qed.

(** Encoding goes piece by piece: after a piece that encodes on its own,
    the rest is encoded as if it stood alone. *)
Lemma encodeURI_app (a b ea : jsstring) :
  encodeURI a = Some ea -> encodeURI (a ++ b) = (ea ++.) <$> encodeURI b.
Proof.
  revert ea. induction a as [|c|c d r IHr IHd] using jsstring_ind2; intros ea.
  - intros [= <-]. change ([] ++ b) with b. by destruct (encodeURI b).
  - cbn [encodeURI]. change ([c] ++ b) with (c :: b).
    destruct (uri_unescaped c) eqn:Hu.
    { intros [= <-]. cbn [encodeURI]. rewrite Hu. by destruct b. }
    destruct (is_trail_surrogate c) eqn:Ht; [done|].
    destruct (is_lead_surrogate c) eqn:Hl; [done|].
    cbn. intros [= <-]. rewrite app_nil_r.
    destruct b; cbn [encodeURI]; rewrite Hu, Ht, Hl; done.
  - change ((c :: d :: r) ++ b) with (c :: d :: (r ++ b)). rewrite !encodeURI_cons2.
    destruct (uri_unescaped c).
    { destruct (encodeURI (d :: r)) as [e|] eqn:He; [|done].
      intros [= <-]. change (d :: r ++ b) with ((d :: r) ++ b).
      rewrite (IHd e eq_refl). by destruct (encodeURI b). }
    destruct (is_trail_surrogate c); [done|].
    destruct (is_lead_surrogate c).
    + destruct (is_trail_surrogate d); [|done].
      destruct (encodeURI r) as [e|] eqn:He; [|done].
      intros [= <-]. rewrite (IHr e eq_refl).
      destruct (encodeURI b); cbn; [|done]. by rewrite (assoc_L (++)).
    + destruct (encodeURI (d :: r)) as [e|] eqn:He; [|done].
      intros [= <-]. change (d :: r ++ b) with ((d :: r) ++ b).
      rewrite (IHd e eq_refl).
      destruct (encodeURI b); cbn; [|done]. by rewrite (assoc_L (++)).
Qed.

(** *** Different keys have different encodings *)

Lemma encodeURI_step (c : N) (r : jsstring) :
  encodeURI (c :: r)
  = match encode_step (c :: r) with
    | Some (t, rest) => (t ++.) <$> encodeURI rest
    | None => None
    end.
Proof.
  destruct r as [|d r]; [cbn|rewrite encodeURI_cons2; cbn [encode_step]].
  - destruct (uri_unescaped c); [done|].
    destruct (is_trail_surrogate c); [done|]. by destruct (is_lead_surrogate c).
  - destruct (uri_unescaped c); [done|].
    destruct (is_trail_surrogate c); [done|].
    destruct (is_lead_surrogate c); [|done]. by destruct (is_trail_surrogate d).
Qed.

(** Linear arithmetic with division and remainder by constants. *)
Ltac div_lia := zify; Z.to_euclidean_division_equations; lia.

Lemma hex_digit_inj (a b : N) : a < 16 -> b < 16 -> hex_digit a = hex_digit b -> a = b.
Proof.
  unfold hex_digit. intros Ha Hb.
  destruct (a <? 10) eqn:Ha10; destruct (b <? 10) eqn:Hb10;
    repeat match goal with
           | H : (_ <? _) = true |- _ => apply N.ltb_lt in H
           | H : (_ <? _) = false |- _ => apply N.ltb_ge in H
           end; lia.
Qed.

Lemma percent_inj (o o' : N) (e e' : jsstring) :
  o < 256 -> o' < 256 -> percent o ++ e = percent o' ++ e' -> o = o' /\ e = e'.
Proof.
  intros Ho Ho'. unfold percent. cbn. intros [= Hhi Hlo He].
  apply hex_digit_inj in Hhi; [|apply N.Div0.div_lt_upper_bound; lia..].
  apply hex_digit_inj in Hlo; [|apply N.mod_lt; lia..].
  split; [|done].
  rewrite (N.div_mod o 16), (N.div_mod o' 16) by lia. by rewrite Hhi, Hlo.
Qed.

Lemma escape_inj (cp cp' : N) (e e' : jsstring) :
  cp < 1114112 -> cp' < 1114112 ->
  escape cp ++ e = escape cp' ++ e' -> cp = cp' /\ e = e'.
Proof.
  intros Hcp Hcp'.
  pose proof (utf8_octets cp Hcp) as Ho. pose proof (utf8_octets cp' Hcp') as Ho'.
  revert Ho Ho'. unfold escape, utf8.
  destruct (cp <? 128) eqn:H1; [|destruct (cp <? 2048) eqn:H2; [|destruct (cp <? 65536) eqn:H3]];
  (destruct (cp' <? 128) eqn:H1';
     [|destruct (cp' <? 2048) eqn:H2'; [|destruct (cp' <? 65536) eqn:H3']]).
  all: repeat match goal with
              | H : (_ <? _) = true |- _ => apply N.ltb_lt in H
              | H : (_ <? _) = false |- _ => apply N.ltb_ge in H
              end.
  all: intros Ho Ho'.
  all: repeat match goal with
              | H : Forall _ (_ :: _) |- _ => apply Forall_cons in H as [? H]
              end.
  all: cbn [map concat]; rewrite <- !(assoc_L (++)), !app_nil_l; intros Heq.
  all: repeat match goal with
              | H : percent _ ++ _ = percent _ ++ _ |- _ =>
                  apply percent_inj in H as [? H]; [|assumption..]
              end.
  all: try (exfalso; clear Heq; div_lia).
  all: subst; split; [div_lia|done].
Qed.

Lemma escape_head (cp : N) : exists t, escape cp = 37 :: t.
Proof. unfold escape, utf8. repeat case_match; cbn; eauto. Qed.

Lemma encode_step_inj (s1 s2 t1 t2 r1 r2 e1 e2 : jsstring) :
  code_units s1 -> code_units s2 ->
  encode_step s1 = Some (t1, r1) -> encode_step s2 = Some (t2, r2) ->
  t1 ++ e1 = t2 ++ e2 ->
  exists u, u <> [] /\ s1 = u ++ r1 /\ s2 = u ++ r2 /\ e1 = e2.
Proof.
  intros Hs1 Hs2.
  destruct s1 as [|c1 q1]; [done|]. destruct s2 as [|c2 q2]; [done|].
  apply Forall_cons in Hs1 as [Hc1 Hq1]. apply Forall_cons in Hs2 as [Hc2 Hq2].
  cbn [encode_step].
  destruct (uri_unescaped c1) eqn:Hu1; destruct (uri_unescaped c2) eqn:Hu2.
  - intros [= <- <-] [= <- <-] [= -> ->]. exists [c2]. done.
  - intros [= <- <-] Hstep Heq. exfalso.
    assert (exists t, t2 = 37 :: t) as [t ->].
    { destruct (is_trail_surrogate c2); [done|].
      destruct (is_lead_surrogate c2); [|injection Hstep as <- _; apply escape_head].
      destruct q2 as [|d2 q2]; [done|]. destruct (is_trail_surrogate d2); [|done].
      injection Hstep as <- _. apply escape_head. }
    injection Heq as -> _. by vm_compute in Hu1.
  - intros Hstep [= <- <-] Heq. exfalso.
    assert (exists t, t1 = 37 :: t) as [t ->].
    { destruct (is_trail_surrogate c1); [done|].
      destruct (is_lead_surrogate c1); [|injection Hstep as <- _; apply escape_head].
      destruct q1 as [|d1 q1]; [done|]. destruct (is_trail_surrogate d1); [|done].
      injection Hstep as <- _. apply escape_head. }
    injection Heq as <- _. by vm_compute in Hu2.
  - destruct (is_trail_surrogate c1) eqn:Ht1; [done|].
    destruct (is_trail_surrogate c2) eqn:Ht2; [done|].
    destruct (is_lead_surrogate c1) eqn:Hl1; destruct (is_lead_surrogate c2) eqn:Hl2.
    + destruct q1 as [|d1 q1]; [done|]. destruct q2 as [|d2 q2]; [done|].
      destruct (is_trail_surrogate d1) eqn:Hd1; [|done].
      destruct (is_trail_surrogate d2) eqn:Hd2; [|done].
      intros [= <- <-] [= <- <-] Heq.
      pose proof (pair_code_point c1 d1 Hl1 Hd1). pose proof (pair_code_point c2 d2 Hl2 Hd2).
      apply escape_inj in Heq as [Hcp ->]; [|lia..].
      unfold is_lead_surrogate, is_trail_surrogate in *.
      rewrite !andb_true_iff, !N.leb_le in *.
      assert (c1 = c2 /\ d1 = d2) as [-> ->] by lia.
      exists [c2; d2]. done.
    + destruct q1 as [|d1 q1]; [done|].
      destruct (is_trail_surrogate d1) eqn:Hd1; [|done].
      intros [= <- <-] [= <- <-] Heq. exfalso.
      pose proof (pair_code_point c1 d1 Hl1 Hd1).
      apply escape_inj in Heq as [Hcp _]; lia.
    + destruct q2 as [|d2 q2]; [done|].
      destruct (is_trail_surrogate d2) eqn:Hd2; [|done].
      intros [= <- <-] [= <- <-] Heq. exfalso.
      pose proof (pair_code_point c2 d2 Hl2 Hd2).
      apply escape_inj in Heq as [Hcp _]; lia.
    + intros [= <- <-] [= <- <-] Heq.
      apply escape_inj in Heq as [-> ->]; [|lia..].
      exists [c2]. done.
Qed.

Lemma encode_step_nonempty (s t r : jsstring) : encode_step s = Some (t, r) -> t <> [].
Proof.
  destruct s as [|c q]; [done|]. cbn [encode_step].
  destruct (uri_unescaped c); [by intros [= <- _]|].
  destruct (is_trail_surrogate c); [done|].
  destruct (is_lead_surrogate c).
  - destruct q as [|d q]; [done|]. destruct (is_trail_surrogate d); [|done].
    intros [= <- _]. by destruct (escape_head ((c - 55296) * 1024 + (d - 56320) + 65536)) as [t' ->].
  - intros [= <- _]. by destruct (escape_head c) as [t' ->].
Qed.

(** [encodeURI] is injective on strings of code units. *)
Lemma encodeURI_injective (s1 s2 enc : jsstring) :
  code_units s1 -> code_units s2 ->
  encodeURI s1 = Some enc -> encodeURI s2 = Some enc -> s1 = s2.
Proof.
  remember (length s1) as n eqn:Hn. revert s1 s2 enc Hn.
  induction n as [n IH] using lt_wf_ind. intros s1 s2 enc -> Hs1 Hs2.
  destruct s1 as [|c1 q1]; destruct s2 as [|c2 q2].
  - done.
  - intros [= <-]. rewrite encodeURI_step.
    destruct (encode_step (c2 :: q2)) as [[t r]|] eqn:Hstep; [|done].
    apply encode_step_nonempty in Hstep.
    destruct (encodeURI r); cbn; [|done]. intros [= Hnil]. by destruct t.
  - rewrite encodeURI_step.
    destruct (encode_step (c1 :: q1)) as [[t r]|] eqn:Hstep; [|done].
    apply encode_step_nonempty in Hstep.
    destruct (encodeURI r); cbn; [|done]. intros [= <-] [= Hnil]. by destruct t.
  - rewrite !encodeURI_step.
    destruct (encode_step (c1 :: q1)) as [[t1 r1]|] eqn:Hstep1; [|done].
    destruct (encode_step (c2 :: q2)) as [[t2 r2]|] eqn:Hstep2; [|done].
    destruct (encodeURI r1) as [e1|] eqn:He1; [|done].
    destruct (encodeURI r2) as [e2|] eqn:He2; [|done].
    cbn. intros [= <-] [= Heq]. symmetry in Heq.
    destruct (encode_step_inj _ _ _ _ _ _ _ _ Hs1 Hs2 Hstep1 Hstep2 Heq)
      as (u & Hu & Hq1 & Hq2 & ->).
    rewrite Hq1, Hq2. f_equal.
    rewrite Hq1 in Hs1. rewrite Hq2 in Hs2.
    apply Forall_app in Hs1 as [_ Hr1]. apply Forall_app in Hs2 as [_ Hr2].
    apply (IH (length r1)) with (enc := e2); try done.
    rewrite Hq1, length_app. destruct u; [done|]. cbn. lia.
Qed.

(** ** The object-store client, continued *)

(** X8. Under one configuration different keys have different public URLs:
    a public URL determines its key. *)
Theorem publicUrl_inj (E : Env) (this : R2) (k1 k2 url : jsstring) (s : State) :
  code_units k1 -> code_units k2 ->
  fst (publicUrl E this k1 s) = Ok url ->
  fst (publicUrl E this k2 s) = Ok url ->
  k1 = k2.
Proof.
  intros Hk1 Hk2.
  unfold publicUrl, new_URL_hostname, replace_trailing_slash, bind, lift_option.
  destruct (url_hostname E (ToString (endpoint this))) as [h|]; cbn; [|done].
  destruct (endsWith h r2_domain).
  - destruct (encodeURI k1) as [e1|] eqn:He1; cbn; [|done].
    destruct (encodeURI k2) as [e2|] eqn:He2; cbn; [|done].
    intros <-%Ok_inj Heq%Ok_inj. repeat apply app_inv_head in Heq. subst e2.
    by apply (encodeURI_injective k1 k2 e1).
  - destruct (endpoint this) as [ep|]; cbn; [|done].
    destruct (encodeURI k1) as [e1|] eqn:He1; cbn; [|done].
    destruct (encodeURI k2) as [e2|] eqn:He2; cbn; [|done].
    intros <-%Ok_inj Heq%Ok_inj. repeat apply app_inv_head in Heq. subst e2.
    by apply (encodeURI_injective k1 k2 e1).
Qed.

Lemma publicUrl_inj_witness : lit "uploads/a b.wav" = lit "uploads/a b.wav".
Proof.
  apply (publicUrl_inj sample_env sample_r2 (lit "uploads/a b.wav") (lit "uploads/a b.wav")
           (lit "https://melody4u.acc.r2.cloudflarestorage.com/uploads/a%20b.wav") init).
  - unfold code_units. repeat (apply Forall_cons_2; [reflexivity|]). apply Forall_nil_2.
  - unfold code_units. repeat (apply Forall_cons_2; [reflexivity|]). apply Forall_nil_2.
  - reflexivity.
  - reflexivity.
Defined.

(** X9. A put the store accepts is readable back: the bucket holds the
    body under the key, with the content type (an empty one counts as
    none); every other object and the local files are as before. *)
Theorem putObject_stores (E : Env) (this : R2) (key : jsstring) (data : bytes)
    (contentType : option jsstring) (s : State) :
  store_accepts E (length (calls s))
    {| put_Bucket := bucket this; put_Key := key; put_Body := data;
       put_ContentType := or_undefined contentType |} = true ->
  fst (putObject E this key data contentType s) = Ok tt
  /\ objects (snd (putObject E this key data contentType s)) !! key
     = Some {| obj_body := data; obj_type := or_undefined contentType |}
  /\ (forall k, k <> key ->
        objects (snd (putObject E this key data contentType s)) !! k = objects s !! k)
  /\ files (snd (putObject E this key data contentType s)) = files s.
Proof.
  intros Hacc. unfold putObject, client_send, bind, log. cbn. rewrite Hacc. cbn.
  split; [done|]. split; [apply lookup_insert_eq|]. split; [|done].
  intros k Hk. by apply lookup_insert_ne.
Qed.

Lemma putObject_stores_witness :
  fst (putObject sample_env sample_r2 (lit "uploads/x.bin") mixed_audio (Some []) init) = Ok tt
  /\ objects (snd (putObject sample_env sample_r2 (lit "uploads/x.bin") mixed_audio (Some []) init))
       !! lit "uploads/x.bin"
     = Some {| obj_body := mixed_audio; obj_type := or_undefined (Some []) |}
  /\ (forall k, k <> lit "uploads/x.bin" ->
        objects (snd (putObject sample_env sample_r2 (lit "uploads/x.bin") mixed_audio
                        (Some []) init)) !! k = objects init !! k)
  /\ files (snd (putObject sample_env sample_r2 (lit "uploads/x.bin") mixed_audio (Some []) init))
     = files init.
Proof.
  apply (putObject_stores sample_env sample_r2 (lit "uploads/x.bin") mixed_audio (Some []) init).
  reflexivity.
Defined.



(** ** The render handler, continued *)


Ltac order_case n :=
  exists (take n render_order); split; [by eexists|];
  first [left; reflexivity|right; reflexivity].

(** X11. The calls of a render request come in the fixed order presign,
    presign, ffmpeg, readFile, put, unlink: what a request does is a
    beginning of that sequence, followed by one [console.error] when it
    stopped on an error. So ffmpeg never runs before both URLs are issued
    and nothing is uploaded before ffmpeg has ended. *)
Theorem render_calls_in_order (E : Env) (r2 : R2) (req : JSValue) (s : State) :
  exists tr,
    calls (snd (post_render E r2 req s)) = calls s ++ tr
    /\ exists steps,
         steps `prefix_of` render_order
         /\ (kind <$> tr = steps \/ kind <$> tr = steps ++ [KConsole]).
Proof.
  handler_paths E; new_calls.
  all: first [order_case 0%nat|order_case 1%nat|order_case 2%nat|order_case 3%nat
             |order_case 4%nat|order_case 5%nat|order_case 6%nat].
Qed.


Lemma render_other_objects (E : Env) (r2 : R2) (req : JSValue) (s : State) :
  (forall k, k <> render_outKey E s ->
     objects (snd (post_render E r2 req s)) !! k = objects s !! k)
  /\ (forall p, p <> render_outFile E s ->
        files (snd (post_render E r2 req s)) !! p = files s !! p).
Proof.
  unfold render_outKey, render_outFile.
  handler_paths E.
  all: split; intros x Hx; cbn.
  all: rewrite ?lookup_delete_ne, ?lookup_insert_ne by done; reflexivity.
Qed.

(** X13. A render request touches one object and one local file at most:
    every object but the one under its output key, and every local file
    but its temporary file, is afterwards what it was before. *)
Theorem render_footprint (E : Env) (r2 : R2) (req : JSValue) (s : State) :
  (forall k, k <> render_outKey E s ->
     objects (snd (post_render E r2 req s)) !! k = objects s !! k)
  /\ (forall p, p <> render_outFile E s ->
        files (snd (post_render E r2 req s)) !! p = files s !! p).
Proof. apply render_other_objects. Qed.

(** X14. The temporary file is removed exactly on the paths on which the
    store took the upload: either [unlinkSync] is not called and the
    bucket is unchanged, or it is called once, on the temporary file, and
    the bucket holds the output object. *)
Theorem render_unlink_iff_uploaded (E : Env) (r2 : R2) (req : JSValue) (s : State) :
  exists tr,
    calls (snd (post_render E r2 req s)) = calls s ++ tr
    /\ ((unlink_calls tr = [] /\ objects (snd (post_render E r2 req s)) = objects s)
        \/ (unlink_calls tr = [render_outFile E s]
            /\ exists staged,
                 objects (snd (post_render E r2 req s))
                 = <[render_outKey E s :=
                       {| obj_body := staged; obj_type := Some (lit "audio/mpeg") |}]>
                     (objects s))).
Proof.
  unfold render_outKey, render_outFile.
  handler_paths E; new_calls.
  all: first [left; split; reflexivity|right; split; [reflexivity|]; eexists; reflexivity].
Qed.

(** What the collaborators are assumed to answer, used against what a path
    supposes. *)
Ltac oracle_agree :=
  repeat match goal with
    | Hall : forall n, is_Some (presign ?E n ?c ?t), H : presign ?E ?n ?c ?t = None |- _ =>
        destruct (Hall n) as [? Hsome]; rewrite Hsome in H; discriminate H
    | Hall : forall n c, ffmpeg_run ?E n c = _, H : ffmpeg_run ?E _ _ = _ |- _ =>
        rewrite Hall in H; first [discriminate H|injection H as <-]
    | Hall : forall n c, store_accepts ?E n c = _, H : store_accepts ?E _ _ = _ |- _ =>
        rewrite Hall in H; first [discriminate H|clear H]
    | Hall : forall n p, unlink_fails ?E n p = _, H : unlink_fails ?E _ _ = _ |- _ =>
        rewrite Hall in H; first [discriminate H|clear H]
    | Hurl : fst (publicUrl ?E ?r ?k ?s0) = _, H : fst (publicUrl ?E ?r ?k ?st) = _ |- _ =>
        lazymatch st with
        | s0 => fail
        | _ => rewrite (proj2 (publicUrl_pure E r k st s0)), Hurl in H;
               first [discriminate H|apply Ok_inj in H as <-|clear H]
        end
    end.

(** X15. A failure to remove the temporary file is swallowed: when
    everything else works and [unlinkSync] throws, the request is still
    answered with status 200, and the staged file stays in the temporary
    directory. *)
Theorem render_unlink_failure_swallowed (E : Env) (r2 : R2) (req : JSValue) (s : State)
    (out : bytes) (url : jsstring) :
  truthy (get_prop (js_or req (JObj [])) (lit "voiceKey")) = true ->
  truthy (get_prop (js_or req (JObj [])) (lit "musicKey")) = true ->
  (forall n, is_Some (presign E n
                        {| get_Bucket := bucket r2;
                           get_Key := get_prop (js_or req (JObj [])) (lit "voiceKey") |} 600)) ->
  (forall n, is_Some (presign E n
                        {| get_Bucket := bucket r2;
                           get_Key := get_prop (js_or req (JObj [])) (lit "musicKey") |} 600)) ->
  (forall n c, ffmpeg_run E n c = FfEnd out) ->
  (forall n c, store_accepts E n c = true) ->
  (forall n p, unlink_fails E n p = true) ->
  fst (publicUrl E r2 (render_outKey E s) s) = Ok url ->
  fst (post_render E r2 req s)
  = Ok {| status := 200;
          body := JObj [(lit "ok", JBool true); (lit "outKey", JStr (render_outKey E s));
                        (lit "url", JStr url)] |}
  /\ last (calls (snd (post_render E r2 req s))) = Some (EvUnlink (render_outFile E s))
  /\ files (snd (post_render E r2 req s)) !! render_outFile E s = Some out.
Proof.
  intros Hv Hm Hsv Hsm Hff Hput Hunl Hurl.
  unfold post_render, render_try. rewrite Hv, Hm. cbn [negb orb].
  unfold render_outKey, render_outFile in *.
  handler_paths E; oracle_agree.
  split; [reflexivity|]. split; [apply last_snoc|reflexivity].
Qed.

Lemma render_unlink_failure_swallowed_witness :
  fst (post_render (with_unlink_failure sample_env) sample_r2 sample_body init)
  = Ok {| status := 200;
          body := JObj [(lit "ok", JBool true);
                        (lit "outKey", JStr (render_outKey (with_unlink_failure sample_env) init));
                        (lit "url",
                         JStr (lit "https://melody4u.acc.r2.cloudflarestorage.com/output/3f2b8c1e-7d4a-4c6b-9e0f-1a2b3c4d5e61.mp3"))] |}
  /\ last (calls (snd (post_render (with_unlink_failure sample_env) sample_r2 sample_body init)))
     = Some (EvUnlink (render_outFile (with_unlink_failure sample_env) init))
  /\ files (snd (post_render (with_unlink_failure sample_env) sample_r2 sample_body init))
       !! render_outFile (with_unlink_failure sample_env) init
     = Some mixed_audio.
Proof.
  apply (render_unlink_failure_swallowed (with_unlink_failure sample_env) sample_r2
           sample_body init mixed_audio
           (lit "https://melody4u.acc.r2.cloudflarestorage.com/output/3f2b8c1e-7d4a-4c6b-9e0f-1a2b3c4d5e61.mp3")).
  - reflexivity.
  - reflexivity.
  - intros n. eexists. reflexivity.
  - intros n. eexists. reflexivity.
  - reflexivity.
  - reflexivity.
  - reflexivity.
  - vm_compute. reflexivity.
Defined.

(** X16. When [publicUrl] throws after the upload, the request is answered
    with status 500 although the output object is in the bucket: the
    store took the write and the caller is told the render failed. *)
Theorem render_stored_then_failed (E : Env) (r2 : R2) (req : JSValue) (s : State)
    (out : bytes) (err : Exn) :
  truthy (get_prop (js_or req (JObj [])) (lit "voiceKey")) = true ->
  truthy (get_prop (js_or req (JObj [])) (lit "musicKey")) = true ->
  (forall n, is_Some (presign E n
                        {| get_Bucket := bucket r2;
                           get_Key := get_prop (js_or req (JObj [])) (lit "voiceKey") |} 600)) ->
  (forall n, is_Some (presign E n
                        {| get_Bucket := bucket r2;
                           get_Key := get_prop (js_or req (JObj [])) (lit "musicKey") |} 600)) ->
  (forall n c, ffmpeg_run E n c = FfEnd out) ->
  (forall n c, store_accepts E n c = true) ->
  fst (publicUrl E r2 (render_outKey E s) s) = Thrown err ->
  fst (post_render E r2 req s)
  = Ok {| status := 500;
          body := JObj [(lit "ok", JBool false); (lit "error", JStr (lit "Render failed"))] |}
  /\ objects (snd (post_render E r2 req s)) !! render_outKey E s
     = Some {| obj_body := out; obj_type := Some (lit "audio/mpeg") |}.
Proof.
  intros Hv Hm Hsv Hsm Hff Hput Hurl.
  unfold post_render, render_try. rewrite Hv, Hm. cbn [negb orb].
  unfold render_outKey in *.
  handler_paths E; oracle_agree.
  all: split; [reflexivity|first [reflexivity|apply lookup_insert_eq]].
Qed.

Lemma render_stored_then_failed_witness :
  fst (post_render sample_env (R2_new schemeless_cfg) sample_body init)
  = Ok {| status := 500;
          body := JObj [(lit "ok", JBool false); (lit "error", JStr (lit "Render failed"))] |}
  /\ objects (snd (post_render sample_env (R2_new schemeless_cfg) sample_body init))
       !! render_outKey sample_env init
     = Some {| obj_body := mixed_audio; obj_type := Some (lit "audio/mpeg") |}.
Proof.
  apply (render_stored_then_failed sample_env (R2_new schemeless_cfg) sample_body init
           mixed_audio TypeError).
  - reflexivity.
  - reflexivity.
  - intros n. eexists. reflexivity.
  - intros n. eexists. reflexivity.
  - reflexivity.
  - reflexivity.
  - vm_compute. reflexivity.
Defined.

(** X17. After a request answered with status 200 on a platform where
    removing a file works, the local files are those from before without
    the temporary file: nothing is left behind. *)
Theorem render_success_leaves_no_file (E : Env) (r2 : R2) (req : JSValue) (s : State)
    (resp : Response) :
  (forall n p, unlink_fails E n p = false) ->
  fst (post_render E r2 req s) = Ok resp ->
  status resp = 200 ->
  files (snd (post_render E r2 req s)) = delete (render_outFile E s) (files s).
Proof.
  intros Hunl. unfold render_outFile. revert resp.
  handler_paths E; oracle_agree.
  all: intros resp <-%Ok_inj Hstatus; try discriminate Hstatus.
  all: apply delete_insert_eq.
Qed.

Lemma render_success_leaves_no_file_witness :
  files (snd (post_render sample_env sample_r2 sample_body init))
  = delete (render_outFile sample_env init) (files init).
Proof.
  apply (render_success_leaves_no_file sample_env sample_r2 sample_body init sample_success).
  - reflexivity.
  - vm_compute. reflexivity.
  - reflexivity.
Defined.





(** ** The upload handler, continued *)

(** X19. An upload with a file touches one object at most and no local
    file: it draws one uuid, makes one call to the store (and logs an
    error when it fails), and every object but the one under its key is
    afterwards what it was before. *)
Theorem upload_footprint (E : Env) (r2 : R2) (f : File) (s : State) :
  files (snd (post_upload E r2 (Some f) s)) = files s
  /\ uuid_count (snd (post_upload E r2 (Some f) s)) = S (uuid_count s)
  /\ (forall k, k <> upload_key_of E s f ->
        objects (snd (post_upload E r2 (Some f) s)) !! k = objects s !! k)
  /\ exists tr,
       calls (snd (post_upload E r2 (Some f) s)) = calls s ++ tr
       /\ (kind <$> tr = [KSend] \/ kind <$> tr = [KSend; KConsole]).
Proof.
  unfold upload_key_of.
  handler_paths E.
  all: split; [reflexivity|]; split; [reflexivity|]; split.
  all: try (intros k Hk; cbn; rewrite ?lookup_insert_ne by done; reflexivity).
  all: new_calls; auto.
Qed.

(** X20. An upload answered with status 200 is in the bucket: the object
    under the returned key holds the bytes of the file, with its content
    type (an empty one counts as none), and the returned URL is
    [publicUrl] of that key. *)
Theorem upload_success_stored (E : Env) (r2 : R2) (f : File) (s : State) (resp : Response) :
  fst (post_upload E r2 (Some f) s) = Ok resp ->
  status resp = 200 ->
  objects (snd (post_upload E r2 (Some f) s)) !! upload_key_of E s f
  = Some {| obj_body := buffer f; obj_type := or_undefined (mimetype f) |}
  /\ exists url,
       fst (publicUrl E r2 (upload_key_of E s f) s) = Ok url
       /\ body resp = JObj [(lit "ok", JBool true); (lit "key", JStr (upload_key_of E s f));
                            (lit "url", JStr url)].
Proof.
  unfold upload_key_of.
  remember (fst (publicUrl E r2 _ s)) as derived eqn:Hderived.
  revert resp. handler_paths E.
  all: intros resp <-%Ok_inj Hstatus; try discriminate Hstatus.
  split; [first [reflexivity|apply lookup_insert_eq]|].
  eexists. split; [|reflexivity].
  match goal with
  | H : fst (publicUrl ?env ?r ?k ?st) = Ok _ |- _ =>
      rewrite Hderived, (proj2 (publicUrl_pure env r k s st)); exact H
  end.
Qed.

Lemma upload_success_stored_witness :
  objects (snd (post_upload sample_env sample_r2 (Some sample_file) init))
    !! upload_key_of sample_env init sample_file
  = Some {| obj_body := buffer sample_file; obj_type := or_undefined (mimetype sample_file) |}
  /\ exists url,
       fst (publicUrl sample_env sample_r2 (upload_key_of sample_env init sample_file) init)
       = Ok url
       /\ body {| status := 200;
                  body := JObj [(lit "ok", JBool true);
                                (lit "key",
                                 JStr (lit "uploads/3f2b8c1e-7d4a-4c6b-9e0f-1a2b3c4d5e60-my-voice.wav"));
                                (lit "url",
                                 JStr (lit "https://melody4u.acc.r2.cloudflarestorage.com/uploads/3f2b8c1e-7d4a-4c6b-9e0f-1a2b3c4d5e60-my-voice.wav"))] |}
          = JObj [(lit "ok", JBool true);
                  (lit "key", JStr (upload_key_of sample_env init sample_file));
                  (lit "url", JStr url)].
Proof.
  apply (upload_success_stored sample_env sample_r2 sample_file init
           {| status := 200;
              body := JObj [(lit "ok", JBool true);
                            (lit "key",
                             JStr (lit "uploads/3f2b8c1e-7d4a-4c6b-9e0f-1a2b3c4d5e60-my-voice.wav"));
                            (lit "url",
                             JStr (lit "https://melody4u.acc.r2.cloudflarestorage.com/uploads/3f2b8c1e-7d4a-4c6b-9e0f-1a2b3c4d5e60-my-voice.wav"))] |}).
  - vm_compute. reflexivity.
  - reflexivity.
Defined.

(** X21. When the store refuses the upload, the answer is status 500 with
    [{ok: false, error: "Upload failed"}], the error is logged, and the
    bucket is unchanged. *)
Theorem upload_rejected (E : Env) (r2 : R2) (f : File) (s : State) :
  (forall n c, store_accepts E n c = false) ->
  fst (post_upload E r2 (Some f) s)
  = Ok {| status := 500;
          body := JObj [(lit "ok", JBool false); (lit "error", JStr (lit "Upload failed"))] |}
  /\ objects (snd (post_upload E r2 (Some f) s)) = objects s
  /\ last (calls (snd (post_upload E r2 (Some f) s)))
     = Some (EvConsoleError (lit "UPLOAD error:") StoreError).
Proof.
  intros Hput. handler_paths E; oracle_agree.
  split; [reflexivity|]. split; [reflexivity|apply last_snoc].
Qed.

Lemma upload_rejected_witness :
  fst (post_upload (scenario true (FfEnd mixed_audio) false) sample_r2 (Some sample_file) init)
  = Ok {| status := 500;
          body := JObj [(lit "ok", JBool false); (lit "error", JStr (lit "Upload failed"))] |}
  /\ objects (snd (post_upload (scenario true (FfEnd mixed_audio) false) sample_r2
                     (Some sample_file) init)) = objects init
  /\ last (calls (snd (post_upload (scenario true (FfEnd mixed_audio) false) sample_r2
                         (Some sample_file) init)))
     = Some (EvConsoleError (lit "UPLOAD error:") StoreError).
Proof.
  apply (upload_rejected (scenario true (FfEnd mixed_audio) false) sample_r2 sample_file init).
  reflexivity.
Defined.

(** An endpoint that does not parse makes every [publicUrl] call throw. *)
Lemma publicUrl_unparsed (E : Env) (this : R2) (key : jsstring) (s : State) :
  url_hostname E (ToString (endpoint this)) = None ->
  fst (publicUrl E this key s) = Thrown TypeError.
Proof.
  intros Hnone. unfold publicUrl, new_URL_hostname, bind, lift_option.
  by rewrite Hnone.
Qed.

Ltac url_conflict Hurl :=
  repeat match goal with
    | H : fst (publicUrl _ _ _ _) = Ok _ |- _ => rewrite Hurl in H; discriminate H
    | H : fst (publicUrl _ _ _ _) = Thrown _ |- _ =>
        rewrite Hurl in H; apply (f_equal (fun o => match o with
                                                    | Thrown e => e
                                                    | Ok _ => TypeError
                                                    end)) in H; cbn in H; subst
    end.

(** X22. With an endpoint that does not parse as a URL, an upload the
    store accepts is answered with status 500 all the same: the object is
    in the bucket and the caller is told the upload failed. *)
Theorem upload_stored_then_failed (E : Env) (r2 : R2) (f : File) (s : State) :
  url_hostname E (ToString (endpoint r2)) = None ->
  (forall n c, store_accepts E n c = true) ->
  fst (post_upload E r2 (Some f) s)
  = Ok {| status := 500;
          body := JObj [(lit "ok", JBool false); (lit "error", JStr (lit "Upload failed"))] |}
  /\ objects (snd (post_upload E r2 (Some f) s)) !! upload_key_of E s f
     = Some {| obj_body := buffer f; obj_type := or_undefined (mimetype f) |}.
Proof.
  intros Hnone Hput. unfold upload_key_of.
  assert (forall k st, fst (publicUrl E r2 k st) = Thrown TypeError) as Hurl
    by (intros; by apply publicUrl_unparsed).
  handler_paths E; oracle_agree; url_conflict Hurl.
  split; [reflexivity|first [reflexivity|apply lookup_insert_eq]].
Qed.

Lemma upload_stored_then_failed_witness :
  fst (post_upload sample_env (R2_new schemeless_cfg) (Some sample_file) init)
  = Ok {| status := 500;
          body := JObj [(lit "ok", JBool false); (lit "error", JStr (lit "Upload failed"))] |}
  /\ objects (snd (post_upload sample_env (R2_new schemeless_cfg) (Some sample_file) init))
       !! upload_key_of sample_env init sample_file
     = Some {| obj_body := buffer sample_file; obj_type := or_undefined (mimetype sample_file) |}.
Proof.
  apply (upload_stored_then_failed sample_env (R2_new schemeless_cfg) sample_file init);
    reflexivity.
Defined.

(** ** Start-up *)

(** X23. When R2_ENDPOINT is not set, start-up prints its warning and goes
    on with a client that has no endpoint; on a platform whose URL parser
    rejects "undefined", every upload with a file is then answered with
    status 500 and no render request is ever answered with status 200. *)
Theorem startup_without_endpoint (E : Env) (env : Cfg) :
  cfg_endpoint env = None ->
  url_hostname E (lit "undefined") = None ->
  fst (startup env) = true
  /\ endpoint (snd (startup env)) = None
  /\ (forall f s,
        exists resp, fst (post_upload E (snd (startup env)) (Some f) s) = Ok resp
                     /\ status resp = 500)
  /\ (forall req s resp,
        fst (post_render E (snd (startup env)) req s) = Ok resp -> status resp <> 200).
Proof.
  intros Hep Hparse. unfold startup. cbn [fst snd].
  assert (endpoint (R2_new env) = None) as Hnone by (cbn; by rewrite Hep).
  assert (forall k st, fst (publicUrl E (R2_new env) k st) = Thrown TypeError) as Hurl.
  { intros. apply publicUrl_unparsed. by rewrite Hnone. }
  split; [rewrite Hep; cbn; apply orb_true_r|]. split; [exact Hnone|].
  generalize dependent (R2_new env). intros r2 _ Hurl. split.
  - intros f s. handler_paths E; url_conflict Hurl; eauto.
  - intros req s resp. revert resp. handler_paths E; url_conflict Hurl.
    all: intros resp <-%Ok_inj; discriminate.
Qed.

Lemma startup_without_endpoint_witness :
  fst (startup unset_cfg) = true
  /\ endpoint (snd (startup unset_cfg)) = None
  /\ (forall f s,
        exists resp, fst (post_upload sample_env (snd (startup unset_cfg)) (Some f) s) = Ok resp
                     /\ status resp = 500)
  /\ (forall req s resp,
        fst (post_render sample_env (snd (startup unset_cfg)) req s) = Ok resp ->
        status resp <> 200).
Proof.
  apply (startup_without_endpoint sample_env unset_cfg); reflexivity.
Defined.

(** ** Validation, namespaces and URLs *)

(** X24. A render request is answered with status 400 exactly when
    [voiceKey] or [musicKey] is falsy: besides an absent or empty key also
    null, false and the numbers 0 and NaN are turned down, while any other
    value, a string or not, goes on to the presigner. *)
Theorem render_rejects_exactly_falsy (E : Env) (r2 : R2) (req : JSValue) (s : State) :
  exists resp,
    fst (post_render E r2 req s) = Ok resp
    /\ (status resp = 400 <->
        truthy (get_prop (js_or req (JObj [])) (lit "voiceKey")) = false
        \/ truthy (get_prop (js_or req (JObj [])) (lit "musicKey")) = false).
Proof.
  handler_paths E.
  all: eexists; split; [reflexivity|]; cbn.
  all: split; [intros Hst; try discriminate Hst; auto|intros [Hf|Hf]; try discriminate Hf; auto].
Qed.

(** [endsWith] holds exactly when the string is some prefix followed by
    the suffix. *)
Lemma endsWith_spec (s suffix : jsstring) :
  endsWith s suffix = true <-> exists p, s = p ++ suffix.
Proof.
  unfold endsWith. rewrite bool_decide_eq_true. split.
  - intros Hdrop. exists (take (length s - length suffix) s).
    rewrite <- Hdrop at 2. by rewrite take_drop.
  - intros [p ->]. rewrite length_app, Nat.add_sub. by rewrite drop_app_length.
Qed.

Lemma key_namespaces_differ (E : Env) (s s0 : State) (f : File) :
  upload_key_of E s0 f <> render_outKey E s.
Proof. unfold upload_key_of, render_outKey. intros Heq. by vm_compute in Heq. Qed.

(** X25. The two namespaces do not meet: an upload key is never the output
    key of a render, so a render request leaves every uploaded object as
    it is. *)
Theorem render_keeps_uploads (E : Env) (r2 : R2) (req : JSValue) (s s0 : State) (f : File) :
  upload_key_of E s0 f <> render_outKey E s
  /\ objects (snd (post_render E r2 req s)) !! upload_key_of E s0 f
     = objects s !! upload_key_of E s0 f.
Proof.
  split; [apply key_namespaces_differ|].
  apply render_other_objects, key_namespaces_differ.
Qed.

Lemma publicUrl_safe_key (E : Env) (this : R2) (key url : jsstring) (s : State) :
  uri_safe key ->
  fst (publicUrl E this key s) = Ok url ->
  exists base, url = base ++ lit "/" ++ key.
Proof.
  intros Hsafe%encodeURI_uri_safe.
  unfold publicUrl, new_URL_hostname, replace_trailing_slash, bind, lift_option.
  destruct (url_hostname E (ToString (endpoint this))) as [h|]; cbn; [|done].
  rewrite Hsafe. destruct (endsWith h r2_domain); cbn.
  - intros <-%Ok_inj.
    exists (lit "https://" ++ ToString (bucket this) ++ lit "." ++ ToString (accountId this)
              ++ r2_domain).
    by rewrite <- !(assoc_L (++)).
  - destruct (endpoint this) as [ep|]; cbn; [|done].
    intros <-%Ok_inj. by eexists.
Qed.

(** X26. When the uuid drawn for the output key is made of characters
    [encodeURI] leaves alone (as the hexadecimal digits and hyphens of a
    uuid are), the URL returned by a successful render ends with a slash
    and the output key itself: the key can be read off the URL. *)
Theorem render_url_ends_with_key (E : Env) (r2 : R2) (req : JSValue) (s : State)
    (resp : Response) :
  uri_safe (uuidv4_at E (S (uuid_count s))) ->
  fst (post_render E r2 req s) = Ok resp ->
  status resp = 200 ->
  exists base,
    body resp = JObj [(lit "ok", JBool true); (lit "outKey", JStr (render_outKey E s));
                      (lit "url", JStr (base ++ lit "/" ++ render_outKey E s))].
Proof.
  intros Huuid.
  assert (uri_safe (render_outKey E s)) as Hsafe.
  { unfold render_outKey, uri_safe. rewrite !Forall_app. split; [|split; [exact Huuid|]].
    - apply Forall_forall. intros c Hc. vm_compute in Hc. not_in_list_eq Hc.
    - apply Forall_forall. intros c Hc. vm_compute in Hc. not_in_list_eq Hc. }
  unfold render_outKey in *. revert resp.
  handler_paths E.
  all: intros resp <-%Ok_inj Hstatus; try discriminate Hstatus.
  all: match goal with
       | H : fst (publicUrl _ _ _ _) = Ok _ |- _ =>
           destruct (publicUrl_safe_key _ _ _ _ _ Hsafe H) as [base ->]
       end.
  all: by exists base.
Qed.

Lemma render_url_ends_with_key_witness :
  exists base,
    body sample_success
    = JObj [(lit "ok", JBool true); (lit "outKey", JStr (render_outKey sample_env init));
            (lit "url", JStr (base ++ lit "/" ++ render_outKey sample_env init))].
Proof.
  apply (render_url_ends_with_key sample_env sample_r2 sample_body init sample_success).
  - apply Forall_forall. intros c Hc. vm_compute in Hc. not_in_list_eq Hc.
  - vm_compute. reflexivity.
  - reflexivity.
Defined.

(** ** The shape of the URLs handed out *)

(** What [publicUrl] returns, in parts: a base that depends on the
    configuration only, a slash, and the encoded key. *)
Lemma publicUrl_parts (E : Env) (this : R2) (key url : jsstring) (s : State) :
  fst (publicUrl E this key s) = Ok url ->
  exists base enc,
    encodeURI key = Some enc
    /\ url = base ++ lit "/" ++ enc
    /\ (base = lit "https://" ++ ToString (bucket this) ++ lit "."
                 ++ ToString (accountId this) ++ lit ".r2.cloudflarestorage.com"
        \/ exists ep, endpoint this = Some ep /\ base = strip_trailing_slash ep).
Proof.
  unfold publicUrl, new_URL_hostname, replace_trailing_slash, bind, lift_option.
  destruct (url_hostname E (ToString (endpoint this))) as [h|]; cbn; [|done].
  destruct (endsWith h r2_domain); cbn.
  - destruct (encodeURI key) as [enc|]; cbn; [|done]. intros <-%Ok_inj.
    eexists _, enc. split; [reflexivity|]. split; [|left; reflexivity].
    by rewrite <- !(assoc_L (++)).
  - destruct (endpoint this) as [ep|]; cbn; [|done].
    destruct (encodeURI key) as [enc|]; cbn; [|done]. intros <-%Ok_inj.
    eexists _, enc. split; [reflexivity|]. split; [reflexivity|right; eauto].
Qed.

(** X6. A public URL is a base taken from the configuration (the
    "https://{bucket}.{accountId}.r2.cloudflarestorage.com" form, or the
    endpoint without a trailing slash), a slash, and the encoded key; the
    encoded key is made of ASCII characters only: those [encodeURI] copies
    and percent signs. *)
Theorem publicUrl_key_part (E : Env) (this : R2) (key url : jsstring) (s : State) :
  code_units key ->
  fst (publicUrl E this key s) = Ok url ->
  exists base enc,
    url = base ++ lit "/" ++ enc
    /\ encodeURI key = Some enc
    /\ Forall url_char enc
    /\ Forall (fun c => c < 128) enc
    /\ (base = lit "https://" ++ ToString (bucket this) ++ lit "."
                 ++ ToString (accountId this) ++ lit ".r2.cloudflarestorage.com"
        \/ exists ep, endpoint this = Some ep /\ base = strip_trailing_slash ep).
Proof.
  intros Hkey (base & enc & Henc & -> & Hbase)%publicUrl_parts.
  destruct (encodeURI_alphabet key enc Hkey Henc) as [Hurl Hascii].
  exists base, enc. auto.
Qed.

Lemma publicUrl_key_part_witness :
  exists base enc,
    lit "https://melody4u.acc.r2.cloudflarestorage.com/caf%C3%A9%20%F0%9F%98%80"
    = base ++ lit "/" ++ enc
    /\ encodeURI (lit "caf" ++ [233; 32; 55357; 56832]) = Some enc
    /\ Forall url_char enc
    /\ Forall (fun c => c < 128) enc
    /\ (base = lit "https://" ++ ToString (bucket sample_r2) ++ lit "."
                 ++ ToString (accountId sample_r2) ++ lit ".r2.cloudflarestorage.com"
        \/ exists ep, endpoint sample_r2 = Some ep /\ base = strip_trailing_slash ep).
Proof.
  apply (publicUrl_key_part sample_env sample_r2 (lit "caf" ++ [233; 32; 55357; 56832])
           (lit "https://melody4u.acc.r2.cloudflarestorage.com/caf%C3%A9%20%F0%9F%98%80") init).
  - unfold code_units. repeat (apply Forall_cons_2; [reflexivity|]). apply Forall_nil_2.
  - reflexivity.
Defined.

(** X7. The URL returned for an upload is the base, "/uploads/", the uuid,
    a hyphen and the encoded file name, when the uuid is made of characters
    [encodeURI] leaves alone: only the name part is ever escaped. *)
Theorem upload_url_shape (E : Env) (r2 : R2) (f : File) (s : State) (resp : Response) :
  uri_safe (uuidv4_at E (uuid_count s)) ->
  fst (post_upload E r2 (Some f) s) = Ok resp ->
  status resp = 200 ->
  exists base name,
    encodeURI (replace_ws (or_string (originalname f) (lit "upload.bin"))) = Some name
    /\ body resp
       = JObj [(lit "ok", JBool true); (lit "key", JStr (upload_key_of E s f));
               (lit "url",
                JStr (base ++ lit "/" ++ lit "uploads/" ++ uuidv4_at E (uuid_count s)
                        ++ lit "-" ++ name))].
Proof.
  intros Huuid.
  assert (uri_safe (lit "uploads/" ++ uuidv4_at E (uuid_count s) ++ lit "-")) as Hsafe.
  { unfold uri_safe. rewrite !Forall_app. split; [|split; [exact Huuid|]].
    - apply Forall_forall. intros c Hc. vm_compute in Hc. not_in_list_eq Hc.
    - apply Forall_forall. intros c Hc. vm_compute in Hc. not_in_list_eq Hc. }
  apply encodeURI_uri_safe in Hsafe.
  unfold upload_key_of. revert resp. handler_paths E.
  all: intros resp <-%Ok_inj Hstatus; try discriminate Hstatus.
  match goal with
  | H : fst (publicUrl _ _ _ _) = Ok _ |- _ =>
      apply publicUrl_parts in H as (base & enc & Henc & -> & _)
  end.
  match type of Henc with
  | encodeURI (?a ++ ?u ++ ?h ++ ?n) = _ =>
      replace (a ++ u ++ h ++ n) with ((a ++ u ++ h) ++ n) in Henc
        by (by rewrite <- !(assoc_L (++)))
  end.
  rewrite (encodeURI_app _ _ _ Hsafe) in Henc.
  destruct (encodeURI (replace_ws _)) as [name|]; [|done].
  apply Some_inj in Henc as <-.
  exists base, name. split; [reflexivity|].
  by rewrite <- !(assoc_L (++)).
Qed.

Lemma upload_url_shape_witness :
  exists base name,
    encodeURI (replace_ws (or_string (originalname sample_file) (lit "upload.bin"))) = Some name
    /\ body {| status := 200;
               body := JObj [(lit "ok", JBool true);
                             (lit "key",
                              JStr (lit "uploads/3f2b8c1e-7d4a-4c6b-9e0f-1a2b3c4d5e60-my-voice.wav"));
                             (lit "url",
                              JStr (lit "https://melody4u.acc.r2.cloudflarestorage.com/uploads/3f2b8c1e-7d4a-4c6b-9e0f-1a2b3c4d5e60-my-voice.wav"))] |}
       = JObj [(lit "ok", JBool true);
               (lit "key", JStr (upload_key_of sample_env init sample_file));
               (lit "url",
                JStr (base ++ lit "/" ++ lit "uploads/" ++ uuidv4_at sample_env (uuid_count init)
                        ++ lit "-" ++ name))].
Proof.
  apply (upload_url_shape sample_env sample_r2 sample_file init
           {| status := 200;
              body := JObj [(lit "ok", JBool true);
                            (lit "key",
                             JStr (lit "uploads/3f2b8c1e-7d4a-4c6b-9e0f-1a2b3c4d5e60-my-voice.wav"));
                            (lit "url",
                             JStr (lit "https://melody4u.acc.r2.cloudflarestorage.com/uploads/3f2b8c1e-7d4a-4c6b-9e0f-1a2b3c4d5e60-my-voice.wav"))] |}).
  - apply Forall_forall. intros c Hc. vm_compute in Hc. not_in_list_eq Hc.
  - vm_compute. reflexivity.
  - reflexivity.
Defined.
